(** * GamepadDemo: the per-frame update loop of the gamepad demo

    A shallow embedding of the [GamepadDemo] class (index.ts): the controller
    state, the projectile array, the input sampler [updateGamepadState], the
    spawn action [shootProjectile], the projectile pass [updateProjectiles],
    the renderer and the frame driver [gameLoop].

    Modelling choices.
    - A JavaScript [number] holding a coordinate, an angle or an axis reading
      is a real number: arithmetic is exact, rounding is not modelled.  The
      only NaN the program can meet comes from [Math.abs(undefined)]; it is
      handled where it arises (an absent reading is [None]).
    - [Date.now()] and [lastShotTime] are integers (milliseconds), in [Z].
    - The class mutates [this]; here every method takes the object and returns
      the mutated object.  The values the host hands out during a frame
      ([navigator.getGamepads()], [Date.now()], the canvas size) are inputs.
    - An uncaught [TypeError] is a completion that carries the object as it
      was mutated up to the throw.
    - Each projectile object carries its reference ([ref]), the number of
      projectiles created before it.  No method reads it; it only names the
      object across frames. *)

From Stdlib Require Import Reals Lra ZArith Lia List Bool String.
Import ListNotations.

Open Scope R_scope.

(** ** JavaScript primitives used by the class *)

(** [a > b] and [a < b] on numbers. *)
Definition Rgtb (a b : R) : bool := if Rlt_dec b a then true else false.
Definition Rltb (a b : R) : bool := if Rlt_dec a b then true else false.

Definition Math_abs : R -> R := Rabs.
Definition Math_max : R -> R -> R := Rmax.
Definition Math_min : R -> R -> R := Rmin.
Definition Math_cos : R -> R := cos.
Definition Math_sin : R -> R := sin.

(** [Math.atan2(y, x)]: the angle of the point (x, y), in (-PI, PI]. *)
Definition Math_atan2 (y x : R) : R :=
  if Rlt_dec 0 x then atan (y / x)
  else if Rlt_dec x 0 then
         if Rle_dec 0 y then atan (y / x) + PI else atan (y / x) - PI
       else if Rlt_dec 0 y then PI / 2
            else if Rlt_dec y 0 then - (PI / 2)
                 else 0.

(** ** Data model *)

Module GamepadState.
Record t : Type := mk {
  x : R;
  y : R;
  rotation : R;
  connected : bool;
  shooting : bool;
  lastShotTime : Z
}.
End GamepadState.

Module Projectile.
Record t : Type := mk {
  ref : nat;
  x : R;
  y : R;
  rotation : R;
  speed : R;
  active : bool
}.
End Projectile.

(** The part of the canvas element the class reads. *)
Record Canvas : Type := { width : R; height : R }.

Record GamepadButton : Type := { pressed : bool }.

Record Gamepad : Type := {
  id : string;
  axes : list R;
  buttons : list GamepadButton
}.

(** What the host returns during one frame. *)
Record Host : Type := {
  getGamepads : list (option Gamepad);
  Date_now : Z
}.

(** The object: [gamepadState], [projectiles], the number of projectile
    objects created so far, and whether a [requestAnimationFrame] callback for
    [gameLoop] is pending. *)
Record GamepadDemo : Type := {
  gamepadState : GamepadState.t;
  projectiles : list Projectile.t;
  created : nat;
  scheduled : bool
}.

Definition shootCooldown : Z := 250.

Inductive Completion (A : Type) : Type :=
| Normal (a : A)
| TypeError (a : A).
Arguments Normal {A} a.
Arguments TypeError {A} a.

(** The object a method leaves behind, however it completed. *)
Definition completed {A : Type} (c : Completion A) : A :=
  match c with
  | Normal a => a
  | TypeError a => a
  end.

(** ** Field updates *)

Definition withGamepadState (g : GamepadState.t) (d : GamepadDemo) : GamepadDemo :=
  {| gamepadState := g; projectiles := projectiles d;
     created := created d; scheduled := scheduled d |}.

Definition withScheduled (b : bool) (d : GamepadDemo) : GamepadDemo :=
  {| gamepadState := gamepadState d; projectiles := projectiles d;
     created := created d; scheduled := b |}.

Definition withConnected (b : bool) (g : GamepadState.t) : GamepadState.t :=
  GamepadState.mk (GamepadState.x g) (GamepadState.y g) (GamepadState.rotation g)
                  b (GamepadState.shooting g) (GamepadState.lastShotTime g).

Definition withShooting (b : bool) (g : GamepadState.t) : GamepadState.t :=
  GamepadState.mk (GamepadState.x g) (GamepadState.y g) (GamepadState.rotation g)
                  (GamepadState.connected g) b (GamepadState.lastShotTime g).

Definition withLastShotTime (t : Z) (g : GamepadState.t) : GamepadState.t :=
  GamepadState.mk (GamepadState.x g) (GamepadState.y g) (GamepadState.rotation g)
                  (GamepadState.connected g) (GamepadState.shooting g) t.

(** ** constructor, lines 33-40: the initial state *)

Definition initialGamepadState (canvas : Canvas) : GamepadState.t :=
  GamepadState.mk (width canvas / 2 - 25) (height canvas / 2 - 25) 0 false false 0%Z.

(** ** onGamepadConnected / onGamepadDisconnected *)

Definition onGamepadConnected (d : GamepadDemo) : GamepadDemo :=
  withGamepadState (withConnected true (gamepadState d)) d.

Definition onGamepadDisconnected (d : GamepadDemo) : GamepadDemo :=
  withGamepadState (withConnected false (gamepadState d)) d.

(** ** shootProjectile *)

(** The object literal of lines 66-72, allocated as object number [r]. *)
Definition newProjectile (r : nat) (g : GamepadState.t) : Projectile.t :=
  Projectile.mk r (GamepadState.x g + 25) (GamepadState.y g + 25)
                (GamepadState.rotation g) 8 true.

Definition shootProjectile (now : Z) (d : GamepadDemo) : GamepadDemo :=
  if (shootCooldown <? now - GamepadState.lastShotTime (gamepadState d))%Z then
    {| gamepadState := withLastShotTime now (gamepadState d);
       projectiles := projectiles d ++ [newProjectile (created d) (gamepadState d)];
       created := S (created d);
       scheduled := scheduled d |}
  else d.

(** ** updateProjectiles *)

(** The body of the [for] loop, lines 82-98, on one array entry. *)
Definition moveProjectile (canvas : Canvas) (p : Projectile.t) : Projectile.t :=
  if Projectile.active p then
    let x' := Projectile.x p + Math_cos (Projectile.rotation p) * Projectile.speed p in
    let y' := Projectile.y p + Math_sin (Projectile.rotation p) * Projectile.speed p in
    Projectile.mk (Projectile.ref p) x' y' (Projectile.rotation p) (Projectile.speed p)
      (if Rltb x' 0 || Rgtb x' (width canvas) || Rltb y' 0 || Rgtb y' (height canvas)
       then false else true)
  else p.

(** Lines 103-105. *)
Definition compact (ps : list Projectile.t) : list Projectile.t :=
  if (100 <? List.length ps)%nat then filter Projectile.active ps else ps.

Definition updateProjectiles (canvas : Canvas) (d : GamepadDemo) : GamepadDemo :=
  {| gamepadState := gamepadState d;
     projectiles := compact (map (moveProjectile canvas) (projectiles d));
     created := created d;
     scheduled := scheduled d |}.

(** ** updateGamepadState *)

Definition deadZone : R := 1 / 10.

(** [for (const gamepad of gamepads) if (gamepad) { ...; break }]. *)
Fixpoint firstGamepad (gamepads : list (option Gamepad)) : option Gamepad :=
  match gamepads with
  | [] => None
  | Some g :: _ => Some g
  | None :: rest => firstGamepad rest
  end.

(** [Math.abs(a) > deadZone] for an axis reading that may be [undefined]:
    [Math.abs(undefined)] is NaN and every comparison with NaN is false. *)
Definition beyondDeadZone (a : option R) : bool :=
  match a with
  | Some v => Rgtb (Math_abs v) deadZone
  | None => false
  end.

(** [if (Math.abs(axis) > deadZone) { pos += axis * 5 }]. *)
Definition stickMove (axis : option R) (pos : R) : R :=
  match axis with
  | Some v => if beyondDeadZone axis then pos + v * 5 else pos
  | None => pos
  end.

(** [gamepad.axes[i] || 0]. *)
Definition orZero (a : option R) : R :=
  match a with
  | Some v => v
  | None => 0
  end.

(** [gamepad.buttons[i]?.pressed], with [undefined] read as falsy. *)
Definition pressedAt (g : Gamepad) (i : nat) : bool :=
  match nth_error (buttons g) i with
  | Some b => pressed b
  | None => false
  end.

(** Lines 124-128: the fire signal. *)
Definition rightTrigger (g : Gamepad) : bool :=
  pressedAt g 7 || pressedAt g 5 || pressedAt g 6 || false.

Definition updateGamepadState (canvas : Canvas) (host : Host) (d : GamepadDemo)
  : Completion GamepadDemo :=
  match firstGamepad (getGamepads host) with
  | None => Normal d
  | Some gamepad =>
    let horizontalAxis := nth_error (axes gamepad) 0 in
    let verticalAxis := nth_error (axes gamepad) 1 in
    let rightHorizontalAxis := orZero (nth_error (axes gamepad) 2) in
    let rightVerticalAxis := orZero (nth_error (axes gamepad) 3) in
    let g := gamepadState d in
    let x1 := stickMove horizontalAxis (GamepadState.x g) in
    let y1 := stickMove verticalAxis (GamepadState.y g) in
    let rotation1 :=
      if Rgtb (Math_abs rightHorizontalAxis) deadZone
         || Rgtb (Math_abs rightVerticalAxis) deadZone
      then Math_atan2 rightVerticalAxis rightHorizontalAxis
      else GamepadState.rotation g in
    let x2 := Math_max 0 (Math_min (width canvas - 50) x1) in
    let y2 := Math_max 0 (Math_min (height canvas - 50) y1) in
    let d1 :=
      withGamepadState
        (GamepadState.mk x2 y2 rotation1 (GamepadState.connected g)
                         (GamepadState.shooting g) (GamepadState.lastShotTime g)) d in
    let d2 :=
      if rightTrigger gamepad then
        let d' := shootProjectile (Date_now host) d1 in
        withGamepadState (withShooting true (gamepadState d')) d'
      else withGamepadState (withShooting false (gamepadState d1)) d1 in
    (* lines 165-170: [horizontalAxis.toFixed(2)] and [verticalAxis.toFixed(2)]
       throw when the reading is [undefined] *)
    match horizontalAxis, verticalAxis with
    | Some _, Some _ => Normal d2
    | _, _ => TypeError d2
    end
  end.

(** The object [shootProjectile] is called on, or that keeps its projectiles
    when the trigger is released: position moved and clamped, rotation
    sampled, the other fields as before (see [sampled_fire], [sampled_hold]). *)
Definition aimed (canvas : Canvas) (gamepad : Gamepad) (d : GamepadDemo) : GamepadDemo :=
  let g := gamepadState d in
  withGamepadState
    (GamepadState.mk
       (Math_max 0 (Math_min (width canvas - 50)
                      (stickMove (nth_error (axes gamepad) 0) (GamepadState.x g))))
       (Math_max 0 (Math_min (height canvas - 50)
                      (stickMove (nth_error (axes gamepad) 1) (GamepadState.y g))))
       (if Rgtb (Math_abs (orZero (nth_error (axes gamepad) 2))) deadZone
           || Rgtb (Math_abs (orZero (nth_error (axes gamepad) 3))) deadZone
        then Math_atan2 (orZero (nth_error (axes gamepad) 3))
                        (orZero (nth_error (axes gamepad) 2))
        else GamepadState.rotation g)
       (GamepadState.connected g) (GamepadState.shooting g)
       (GamepadState.lastShotTime g)) d.

(** ** render *)

(** What one call of [render] draws: the centre of every disc, the origin and
    angle of the rectangle, and its fill colour. *)
Record Scene : Type := {
  arcs : list (R * R);
  translate : R * R;
  rotate : R;
  fillStyle : string
}.

Definition renderProjectiles (ps : list Projectile.t) : list (R * R) :=
  map (fun p => (Projectile.x p, Projectile.y p)) (filter Projectile.active ps).

Definition render (d : GamepadDemo) : Scene :=
  let g := gamepadState d in
  {| arcs := renderProjectiles (projectiles d);
     translate := (GamepadState.x g + 25, GamepadState.y g + 25);
     rotate := GamepadState.rotation g;
     fillStyle := if GamepadState.connected g
                  then (if GamepadState.shooting g then "#e74c3c" else "#3498db")
                  else "#ccc" |}.

(** ** gameLoop *)

(** One call of [gameLoop]: the object afterwards and the scene drawn, if
    [render] was reached.  A throw leaves the loop without re-arming it. *)
Definition gameLoop (canvas : Canvas) (host : Host) (d : GamepadDemo)
  : GamepadDemo * option Scene :=
  match (if GamepadState.connected (gamepadState d)
         then updateGamepadState canvas host d
         else Normal d) with
  | TypeError d1 => (withScheduled false d1, None)
  | Normal d1 =>
    let d2 := updateProjectiles canvas d1 in
    (withScheduled true d2, Some (render d2))
  end.

(** The fields as the constructor sets them, before its call of [gameLoop]. *)
Definition fields (canvas : Canvas) : GamepadDemo :=
  {| gamepadState := initialGamepadState canvas;
     projectiles := [];
     created := O;
     scheduled := false |}.

(** The object when the constructor returns: its own call of [gameLoop] finds
    no controller and no projectile, and arms the first frame
    (see [construct_gameLoop]). *)
Definition construct (canvas : Canvas) : GamepadDemo :=
  withScheduled true (fields canvas).

(** ** The callbacks the host runs, one at a time *)

Inductive Event : Type :=
| GamepadConnected
| GamepadDisconnected
| AnimationFrame (host : Host).

Definition dispatch (canvas : Canvas) (d : GamepadDemo) (e : Event) : GamepadDemo :=
  match e with
  | GamepadConnected => onGamepadConnected d
  | GamepadDisconnected => onGamepadDisconnected d
  | AnimationFrame host => if scheduled d then fst (gameLoop canvas host d) else d
  end.

Definition run (canvas : Canvas) (d : GamepadDemo) (es : list Event) : GamepadDemo :=
  fold_left (dispatch canvas) es d.

(** The states the demo can be in: the constructed object after any sequence of
    callbacks. *)
Definition reachable (canvas : Canvas) (d : GamepadDemo) : Prop :=
  exists es, d = run canvas (construct canvas) es.

(** ** In-bounds positions, well-formed projectile arrays *)

Definition inBounds (canvas : Canvas) (g : GamepadState.t) : Prop :=
  0 <= GamepadState.x g <= width canvas - 50 /\
  0 <= GamepadState.y g <= height canvas - 50.

(** References are distinct and were all handed out already. *)
Definition wellFormed (d : GamepadDemo) : Prop :=
  NoDup (map Projectile.ref (projectiles d)) /\
  Forall (fun p => (Projectile.ref p < created d)%nat) (projectiles d).

(** ** Concrete inputs used below *)

Definition canvas800 : Canvas := {| width := 800; height := 600 |}.

(** A controller with the given axes whose button 7 is the trigger. *)
Definition pad (ax : list R) (fire : bool) : Gamepad :=
  {| id := "pad"; axes := ax;
     buttons := repeat {| pressed := false |} 7 ++ [{| pressed := fire |}] |}.

Definition hostAt (ax : list R) (fire : bool) (now : Z) : Host :=
  {| getGamepads := [None; Some (pad ax fire)]; Date_now := now |}.

(** The demo on the 800 x 600 canvas with a controller attached, at rest in
    the centre, with the given projectiles. *)
Definition centred (ps : list Projectile.t) (n : nat) (on : bool) : GamepadDemo :=
  {| gamepadState := GamepadState.mk 375 275 0 on false 0;
     projectiles := ps; created := n; scheduled := true |}.

(** The demo after one shot at time 1000 from the centre of the 800 x 600
    canvas and the unplugging of the controller (see [inFlight_reachable]). *)
Definition inFlight : GamepadDemo :=
  {| gamepadState := GamepadState.mk 375 275 0 false true 1000;
     projectiles := [Projectile.mk 0 408 300 0 8 true];
     created := 1; scheduled := true |}.

(** [p] is a dead projectile of [d], or one that was dropped from the array:
    it is not live, its reference was handed out, and no other entry of the
    array goes by that reference. *)
Definition frozen (p : Projectile.t) (d : GamepadDemo) : Prop :=
  Projectile.active p = false /\
  (Projectile.ref p < created d)%nat /\
  forall q, In q (projectiles d) -> Projectile.ref q = Projectile.ref p -> q = p.

(** A controller that exposes no axis and no button. *)
Definition bareGamepad : Gamepad := {| id := "bare"; axes := []; buttons := [] |}.

(** A controller with one stick and no button. *)
Definition oneStick : Gamepad := {| id := "one stick"; axes := [1; 0]; buttons := [] |}.

(** A projectile that left the 800 x 600 canvas on the right. *)
Definition gone : Projectile.t := Projectile.mk 0 808 300 0 8 false.

(** The number of live entries of a projectile array. *)
Fixpoint liveCount (ps : list Projectile.t) : nat :=
  match ps with
  | [] => O
  | p :: rest => ((if Projectile.active p then 1 else 0) + liveCount rest)%nat
  end.

(** 101 live projectiles flying right from the centre of the canvas. *)
Definition volley : list Projectile.t :=
  map (fun i => Projectile.mk i 400 300 0 8 true) (seq 0 101).

(** 101 projectiles that left the canvas on the right. *)
Definition spent : list Projectile.t :=
  map (fun i => Projectile.mk i 808 300 0 8 false) (seq 0 101).

(** ** Notions used to state what the frames keep *)

(** The point of [p] passes the test of lines 90-95. *)
Definition onCanvas (canvas : Canvas) (p : Projectile.t) : Prop :=
  0 <= Projectile.x p <= width canvas /\ 0 <= Projectile.y p <= height canvas.

(** [n] passes of the loop body of [updateProjectiles] over one projectile. *)
Definition flight (canvas : Canvas) (n : nat) (p : Projectile.t) : Projectile.t :=
  Nat.iter n (moveProjectile canvas) p.

(** The connectivity flag the last connection or disconnection callback of
    [es] leaves, [b] when there is none. *)
Fixpoint lastPlug (b : bool) (es : list Event) : bool :=
  match es with
  | [] => b
  | GamepadConnected :: rest => lastPlug true rest
  | GamepadDisconnected :: rest => lastPlug false rest
  | AnimationFrame _ :: rest => lastPlug b rest
  end.

(** Whether a frame on [d] with [host] calls [shootProjectile]: a controller is
    connected and sampled and its fire signal is true. *)
Definition fires (host : Host) (d : GamepadDemo) : bool :=
  GamepadState.connected (gamepadState d) &&
  match firstGamepad (getGamepads host) with
  | Some gamepad => rightTrigger gamepad
  | None => false
  end.

(** * Basic facts *)

Lemma Rgtb_true (a b : R) : b < a -> Rgtb a b = true.
Proof. intros H. unfold Rgtb. destruct (Rlt_dec b a); [reflexivity | contradiction]. Qed.

Lemma Rgtb_false (a b : R) : a <= b -> Rgtb a b = false.
Proof. intros H. unfold Rgtb. destruct (Rlt_dec b a); [lra | reflexivity]. Qed.

Lemma Rltb_true (a b : R) : a < b -> Rltb a b = true.
Proof. intros H. unfold Rltb. destruct (Rlt_dec a b); [reflexivity | contradiction]. Qed.

Lemma Rltb_false (a b : R) : b <= a -> Rltb a b = false.
Proof. intros H. unfold Rltb. destruct (Rlt_dec a b); [lra | reflexivity]. Qed.

(** The clamp of lines 150-151. *)
Lemma clamp_range (hi v : R) :
  0 <= hi -> 0 <= Math_max 0 (Math_min hi v) <= hi.
Proof.
  intros Hhi. unfold Math_max, Math_min, Rmax, Rmin.
  destruct (Rle_dec hi v); destruct (Rle_dec 0 _); lra.
Qed.

Lemma clamp_id (hi v : R) :
  0 <= v <= hi -> Math_max 0 (Math_min hi v) = v.
Proof.
  intros Hv. unfold Math_max, Math_min, Rmax, Rmin.
  destruct (Rle_dec hi v); destruct (Rle_dec 0 _); lra.
Qed.

Lemma construct_gameLoop (canvas : Canvas) (host : Host) :
  gameLoop canvas host (fields canvas) = (construct canvas, Some (render (fields canvas))).
Proof. reflexivity. Qed.

(** ** What [updateGamepadState] leaves behind *)

Section Sampler.
Variables (canvas : Canvas) (host : Host) (d : GamepadDemo) (gamepad : Gamepad).
Hypothesis Hfirst : firstGamepad (getGamepads host) = Some gamepad.

Lemma sampled_fire :
  rightTrigger gamepad = true ->
  completed (updateGamepadState canvas host d) =
  (let s := shootProjectile (Date_now host) (aimed canvas gamepad d) in
   withGamepadState (withShooting true (gamepadState s)) s).
Proof.
  intros Hfire. unfold updateGamepadState, aimed. rewrite Hfirst. cbv zeta.
  rewrite Hfire.
  destruct (nth_error (axes gamepad) 0), (nth_error (axes gamepad) 1); reflexivity.
Qed.

Lemma sampled_hold :
  rightTrigger gamepad = false ->
  completed (updateGamepadState canvas host d) =
  (let s := aimed canvas gamepad d in
   withGamepadState (withShooting false (gamepadState s)) s).
Proof.
  intros Hfire. unfold updateGamepadState, aimed. rewrite Hfirst. cbv zeta.
  rewrite Hfire.
  destruct (nth_error (axes gamepad) 0), (nth_error (axes gamepad) 1); reflexivity.
Qed.

Lemma sampled_throws :
  updateGamepadState canvas host d =
  match nth_error (axes gamepad) 0, nth_error (axes gamepad) 1 with
  | Some _, Some _ => Normal (completed (updateGamepadState canvas host d))
  | _, _ => TypeError (completed (updateGamepadState canvas host d))
  end.
Proof.
  unfold updateGamepadState. rewrite Hfirst. cbv zeta.
  destruct (nth_error (axes gamepad) 0), (nth_error (axes gamepad) 1); reflexivity.
Qed.

(** The controller state after the sampler is that of [aimed], up to the
    firing flag and the time of the last shot. *)
Lemma sampled_pose :
  let g' := gamepadState (completed (updateGamepadState canvas host d)) in
  let a := gamepadState (aimed canvas gamepad d) in
  GamepadState.x g' = GamepadState.x a /\
  GamepadState.y g' = GamepadState.y a /\
  GamepadState.rotation g' = GamepadState.rotation a /\
  GamepadState.connected g' = GamepadState.connected (gamepadState d) /\
  GamepadState.shooting g' = rightTrigger gamepad.
Proof.
  destruct (rightTrigger gamepad) eqn:Hfire; cbv zeta.
  - rewrite (sampled_fire Hfire). unfold shootProjectile.
    destruct (Z.ltb _ _); repeat split; reflexivity.
  - rewrite (sampled_hold Hfire). repeat split; reflexivity.
Qed.

End Sampler.

Lemma sampler_no_gamepad (canvas : Canvas) (host : Host) (d : GamepadDemo) :
  firstGamepad (getGamepads host) = None ->
  updateGamepadState canvas host d = Normal d.
Proof. intros H. unfold updateGamepadState. rewrite H. reflexivity. Qed.

(** ** What [gameLoop] runs *)

Lemma gameLoop_disconnected (canvas : Canvas) (host : Host) (d : GamepadDemo) :
  GamepadState.connected (gamepadState d) = false ->
  gameLoop canvas host d =
  (withScheduled true (updateProjectiles canvas d),
   Some (render (updateProjectiles canvas d))).
Proof. intros H. unfold gameLoop. rewrite H. reflexivity. Qed.

Lemma gameLoop_gamepadState (canvas : Canvas) (host : Host) (d : GamepadDemo) :
  gamepadState (fst (gameLoop canvas host d)) =
  gamepadState (completed (if GamepadState.connected (gamepadState d)
                           then updateGamepadState canvas host d
                           else Normal d)).
Proof.
  unfold gameLoop.
  destruct (if GamepadState.connected (gamepadState d) then _ else _); reflexivity.
Qed.

Lemma gameLoop_sampled (canvas : Canvas) (host : Host) (d : GamepadDemo) :
  GamepadState.connected (gamepadState d) = true ->
  gamepadState (fst (gameLoop canvas host d)) =
  gamepadState (completed (updateGamepadState canvas host d)).
Proof. intros H. rewrite gameLoop_gamepadState, H. reflexivity. Qed.

(** A frame that completes runs the projectile pass on what the sampler left
    and draws the result. *)
Lemma gameLoop_completes (canvas : Canvas) (host : Host) (d d1 : GamepadDemo) :
  (if GamepadState.connected (gamepadState d)
   then updateGamepadState canvas host d else Normal d) = Normal d1 ->
  gameLoop canvas host d =
  (withScheduled true (updateProjectiles canvas d1),
   Some (render (updateProjectiles canvas d1))).
Proof. intros H. unfold gameLoop. rewrite H. reflexivity. Qed.

Lemma gameLoop_throws (canvas : Canvas) (host : Host) (d d1 : GamepadDemo) :
  (if GamepadState.connected (gamepadState d)
   then updateGamepadState canvas host d else Normal d) = TypeError d1 ->
  gameLoop canvas host d = (withScheduled false d1, None).
Proof. intros H. unfold gameLoop. rewrite H. reflexivity. Qed.

Ltac real_side :=
  unfold Math_abs, Math_cos, Math_sin, deadZone, Rabs;
  rewrite ?cos_0, ?sin_0;
  repeat match goal with
         | |- context [Rcase_abs ?a] => destruct (Rcase_abs a)
         end;
  lra.

(** * The dead zone (C4) *)

Lemma stickMove_dead (a pos : R) :
  Math_abs a <= deadZone -> stickMove (Some a) pos = pos.
Proof.
  intros H. unfold stickMove, beyondDeadZone. rewrite (Rgtb_false _ _ H). reflexivity.
Qed.

(** C4: for each movement axis independently, a reading of magnitude at most
    the dead zone 0.1 makes the sampler add nothing to that coordinate: the
    coordinate after [updateGamepadState] is the clamp of the old one, hence
    the old one itself when that was within the bounds. *)
Theorem dead_zone_zero_delta
  (canvas : Canvas) (host : Host) (d : GamepadDemo) (gamepad : Gamepad) :
  firstGamepad (getGamepads host) = Some gamepad ->
  let g := gamepadState d in
  let g' := gamepadState (completed (updateGamepadState canvas host d)) in
  (forall a, nth_error (axes gamepad) 0 = Some a -> Math_abs a <= deadZone ->
     (forall pos, stickMove (Some a) pos = pos) /\
     GamepadState.x g' = Math_max 0 (Math_min (width canvas - 50) (GamepadState.x g)) /\
     (0 <= GamepadState.x g <= width canvas - 50 -> GamepadState.x g' = GamepadState.x g))
  /\
  (forall a, nth_error (axes gamepad) 1 = Some a -> Math_abs a <= deadZone ->
     (forall pos, stickMove (Some a) pos = pos) /\
     GamepadState.y g' = Math_max 0 (Math_min (height canvas - 50) (GamepadState.y g)) /\
     (0 <= GamepadState.y g <= height canvas - 50 -> GamepadState.y g' = GamepadState.y g)).
Proof.
  intros Hfirst g g'.
  destruct (sampled_pose canvas host d gamepad Hfirst) as (Hx & Hy & _).
  cbv zeta in Hx, Hy. unfold aimed, withGamepadState in Hx, Hy.
  cbn [gamepadState GamepadState.x GamepadState.y] in Hx, Hy.
  fold g g' in Hx, Hy.
  split; intros a Ha Hdead.
  - assert (E : GamepadState.x g' =
                Math_max 0 (Math_min (width canvas - 50) (GamepadState.x g))).
    { rewrite Hx, Ha, (stickMove_dead _ _ Hdead). reflexivity. }
    split; [intros pos; apply stickMove_dead; assumption|].
    split; [exact E|]. intros Hin. rewrite E. apply clamp_id. exact Hin.
  - assert (E : GamepadState.y g' =
                Math_max 0 (Math_min (height canvas - 50) (GamepadState.y g))).
    { rewrite Hy, Ha, (stickMove_dead _ _ Hdead). reflexivity. }
    split; [intros pos; apply stickMove_dead; assumption|].
    split; [exact E|]. intros Hin. rewrite E. apply clamp_id. exact Hin.
Qed.

Lemma dead_zone_zero_delta_witness :
  let host := hostAt [1 / 20; - (1 / 10)] false 1000 in
  let d := centred [] 0 true in
  let d' := completed (updateGamepadState canvas800 host d) in
  GamepadState.x (gamepadState d') = 375 /\ GamepadState.y (gamepadState d') = 275.
Proof.
  intros host d d'.
  destruct (@dead_zone_zero_delta canvas800 host d (pad [1 / 20; - (1 / 10)] false)
              eq_refl) as [Hx Hy].
  split.
  - apply (Hx (1 / 20) eq_refl); [real_side | cbn; lra].
  - apply (Hy (- (1 / 10)) eq_refl); [real_side | cbn; lra].
Defined.

(** * Orientation: sample and hold (C7) *)

Lemma Math_atan2_compass :
  Math_atan2 0 1 = 0 /\ Math_atan2 1 0 = PI / 2 /\
  Math_atan2 0 (-1) = PI /\ Math_atan2 (-1) 0 = - (PI / 2) /\ Math_atan2 1 1 = PI / 4.
Proof.
  unfold Math_atan2. repeat split.
  - destruct (Rlt_dec 0 1); [|lra]. replace (0 / 1) with 0 by lra. apply atan_0.
  - destruct (Rlt_dec 0 0); [lra|]. destruct (Rlt_dec 0 1); [reflexivity | lra].
  - destruct (Rlt_dec 0 (-1)); [lra|]. destruct (Rlt_dec (-1) 0); [|lra].
    destruct (Rle_dec 0 0); [|lra]. replace (0 / -1) with 0 by lra.
    rewrite atan_0. lra.
  - destruct (Rlt_dec 0 0); [lra|]. destruct (Rlt_dec 0 (-1)); [lra|].
    destruct (Rlt_dec (-1) 0); [reflexivity | lra].
  - destruct (Rlt_dec 0 1); [|lra]. replace (1 / 1) with 1 by lra. apply atan_1.
Qed.

(** C7: in every frame, if a controller is sampled and at least one of the
    second stick's two readings exceeds the dead zone 0.1 in magnitude, the
    orientation becomes atan2(vertical, horizontal); if both readings are
    within the dead zone, or no controller is sampled in that frame, the
    orientation is exactly the previous one. *)
Theorem orientation_sample_and_hold (canvas : Canvas) (host : Host) (d : GamepadDemo) :
  let rotation' := GamepadState.rotation (gamepadState (fst (gameLoop canvas host d))) in
  match (if GamepadState.connected (gamepadState d)
         then firstGamepad (getGamepads host) else None) with
  | Some gamepad =>
    let h := orZero (nth_error (axes gamepad) 2) in
    let v := orZero (nth_error (axes gamepad) 3) in
    (deadZone < Math_abs h \/ deadZone < Math_abs v -> rotation' = Math_atan2 v h) /\
    (Math_abs h <= deadZone /\ Math_abs v <= deadZone ->
     rotation' = GamepadState.rotation (gamepadState d))
  | None => rotation' = GamepadState.rotation (gamepadState d)
  end.
Proof.
  intros rotation'. unfold rotation'. rewrite gameLoop_gamepadState.
  destruct (GamepadState.connected (gamepadState d)); [|reflexivity].
  destruct (firstGamepad (getGamepads host)) as [gamepad|] eqn:Hfirst.
  - destruct (sampled_pose canvas host d gamepad Hfirst) as (_ & _ & Hr & _).
    cbv zeta in Hr. rewrite Hr. unfold aimed, withGamepadState.
    cbn [gamepadState GamepadState.rotation]. split.
    + intros [Hh | Hv].
      * rewrite (Rgtb_true _ _ Hh). reflexivity.
      * rewrite (Rgtb_true _ _ Hv), orb_true_r. reflexivity.
    + intros [Hh Hv]. rewrite (Rgtb_false _ _ Hh), (Rgtb_false _ _ Hv). reflexivity.
  - rewrite (sampler_no_gamepad _ _ _ Hfirst). reflexivity.
Qed.

Lemma orientation_sample_and_hold_witness :
  GamepadState.rotation
    (gamepadState (fst (gameLoop canvas800 (hostAt [0; 0; 0; 1] false 1000)
                          (centred [] 0 true)))) = PI / 2 /\
  GamepadState.rotation
    (gamepadState (fst (gameLoop canvas800 (hostAt [0; 0; 1 / 10; - (1 / 20)] false 1000)
                          (centred [] 0 true)))) = 0.
Proof.
  split.
  - destruct (orientation_sample_and_hold canvas800 (hostAt [0; 0; 0; 1] false 1000)
                (centred [] 0 true)) as [Hmove _].
    rewrite Hmove;
      [apply Math_atan2_compass | right; cbn [pad axes nth_error orZero]; real_side].
  - destruct (orientation_sample_and_hold canvas800
                (hostAt [0; 0; 1 / 10; - (1 / 20)] false 1000)
                (centred [] 0 true)) as [_ Hhold].
    rewrite Hhold; [reflexivity | split; cbn [pad axes nth_error orZero]; real_side].
Defined.

(** * The position stays within the bounds (C5) *)

Lemma sampler_inBounds (canvas : Canvas) (host : Host) (d : GamepadDemo) :
  0 <= width canvas - 50 -> 0 <= height canvas - 50 ->
  inBounds canvas (gamepadState d) ->
  inBounds canvas (gamepadState (completed (updateGamepadState canvas host d))).
Proof.
  intros Hw Hh Hd.
  destruct (firstGamepad (getGamepads host)) as [gamepad|] eqn:Hfirst.
  - destruct (sampled_pose canvas host d gamepad Hfirst) as (Hx & Hy & _).
    cbv zeta in Hx, Hy. unfold inBounds. rewrite Hx, Hy.
    unfold aimed, withGamepadState. cbn [gamepadState GamepadState.x GamepadState.y].
    split; apply clamp_range; assumption.
  - rewrite (sampler_no_gamepad _ _ _ Hfirst). exact Hd.
Qed.

Lemma gameLoop_inBounds (canvas : Canvas) (host : Host) (d : GamepadDemo) :
  inBounds canvas (gamepadState d) ->
  inBounds canvas (gamepadState (fst (gameLoop canvas host d))).
Proof.
  intros Hd. rewrite gameLoop_gamepadState.
  destruct (GamepadState.connected (gamepadState d)); [|exact Hd].
  apply sampler_inBounds; [| |exact Hd]; destruct Hd as [[? ?] [? ?]]; lra.
Qed.

Lemma dispatch_inBounds (canvas : Canvas) (d : GamepadDemo) (e : Event) :
  inBounds canvas (gamepadState d) ->
  inBounds canvas (gamepadState (dispatch canvas d e)).
Proof.
  intros Hd. destruct e as [| |host]; cbn [dispatch].
  - exact Hd.
  - exact Hd.
  - destruct (scheduled d); [apply gameLoop_inBounds|]; exact Hd.
Qed.

Lemma run_inBounds (canvas : Canvas) (es : list Event) :
  forall d, inBounds canvas (gamepadState d) ->
            inBounds canvas (gamepadState (run canvas d es)).
Proof.
  induction es as [|e es IH]; intros d Hd; [exact Hd|].
  apply (IH (dispatch canvas d e)), dispatch_inBounds, Hd.
Qed.

(** C5: when the initial position is within the bounds, the position is within
    [0, width - 50] x [0, height - 50] in every reachable state, and every
    tick preserves that; a tick that samples a controller sets each coordinate
    to the clamp of the moved coordinate, each axis on its own. *)
Theorem position_within_bounds (canvas : Canvas) :
  inBounds canvas (initialGamepadState canvas) ->
  (forall d, reachable canvas d -> inBounds canvas (gamepadState d)) /\
  (forall host d, inBounds canvas (gamepadState d) ->
                  inBounds canvas (gamepadState (fst (gameLoop canvas host d)))) /\
  (forall host d gamepad,
      GamepadState.connected (gamepadState d) = true ->
      firstGamepad (getGamepads host) = Some gamepad ->
      let g := gamepadState d in
      let g' := gamepadState (fst (gameLoop canvas host d)) in
      GamepadState.x g' =
      Math_max 0 (Math_min (width canvas - 50)
                    (stickMove (nth_error (axes gamepad) 0) (GamepadState.x g))) /\
      GamepadState.y g' =
      Math_max 0 (Math_min (height canvas - 50)
                    (stickMove (nth_error (axes gamepad) 1) (GamepadState.y g)))).
Proof.
  intros Hinit. split; [|split].
  - intros d [es ->]. apply run_inBounds. exact Hinit.
  - intros host d. apply gameLoop_inBounds.
  - intros host d gamepad Hconn Hfirst g g'. unfold g'.
    rewrite (gameLoop_sampled _ _ _ Hconn).
    destruct (sampled_pose canvas host d gamepad Hfirst) as (Hx & Hy & _).
    cbv zeta in Hx, Hy. rewrite Hx, Hy. split; reflexivity.
Qed.

Lemma position_within_bounds_witness :
  inBounds canvas800 (initialGamepadState canvas800) /\
  inBounds canvas800
    (gamepadState
       (run canvas800 (construct canvas800)
            [GamepadConnected; AnimationFrame (hostAt [1; -1; 0; 0] true 1000)])).
Proof.
  assert (Hinit : inBounds canvas800 (initialGamepadState canvas800)).
  { unfold inBounds. cbn. lra. }
  split; [exact Hinit|].
  apply (proj1 (position_within_bounds canvas800 Hinit)).
  exists [GamepadConnected; AnimationFrame (hostAt [1; -1; 0; 0] true 1000)].
  reflexivity.
Defined.

(** * Fire-rate limiting (C2) *)

Open Scope Z_scope.

Lemma shootProjectile_spawns (now : Z) (d : GamepadDemo) :
  shootCooldown < now - GamepadState.lastShotTime (gamepadState d) ->
  shootProjectile now d =
  {| gamepadState := withLastShotTime now (gamepadState d);
     projectiles := projectiles d ++ [newProjectile (created d) (gamepadState d)];
     created := S (created d);
     scheduled := scheduled d |}.
Proof.
  intros H. unfold shootProjectile.
  destruct (Z.ltb_spec shootCooldown (now - GamepadState.lastShotTime (gamepadState d)));
    [reflexivity | lia].
Qed.





Close Scope Z_scope.

(** * Spawn position and projectile motion (C9) *)

Lemma moveProjectile_live (canvas : Canvas) (p : Projectile.t) :
  Projectile.active p = true ->
  Projectile.x (moveProjectile canvas p) =
    Projectile.x p + Projectile.speed p * Math_cos (Projectile.rotation p) /\
  Projectile.y (moveProjectile canvas p) =
    Projectile.y p + Projectile.speed p * Math_sin (Projectile.rotation p) /\
  Projectile.rotation (moveProjectile canvas p) = Projectile.rotation p /\
  Projectile.speed (moveProjectile canvas p) = Projectile.speed p /\
  Projectile.ref (moveProjectile canvas p) = Projectile.ref p.
Proof.
  intros Hp. unfold moveProjectile. rewrite Hp. cbn.
  repeat split; try reflexivity; apply Rplus_eq_compat_l, Rmult_comm.
Qed.

Lemma moveProjectile_dead (canvas : Canvas) (p : Projectile.t) :
  Projectile.active p = false -> moveProjectile canvas p = p.
Proof. intros Hp. unfold moveProjectile. rewrite Hp. reflexivity. Qed.

Lemma moveProjectile_ref (canvas : Canvas) (p : Projectile.t) :
  Projectile.ref (moveProjectile canvas p) = Projectile.ref p.
Proof. unfold moveProjectile. destruct (Projectile.active p); reflexivity. Qed.

Lemma compact_small (ps : list Projectile.t) :
  (List.length ps <= 100)%nat -> compact ps = ps.
Proof.
  intros H. unfold compact.
  destruct (Nat.ltb_spec 100 (List.length ps)); [lia | reflexivity].
Qed.

Lemma compact_large (ps : list Projectile.t) :
  (100 < List.length ps)%nat -> compact ps = filter Projectile.active ps.
Proof.
  intros H. unfold compact.
  destruct (Nat.ltb_spec 100 (List.length ps)); [reflexivity | lia].
Qed.

(** C9: a spawned projectile starts at the entity's centre (position plus 25
    on each axis) with the entity's orientation, speed 8 and live; one update
    step moves a live projectile by speed * cos(angle) in x and
    speed * sin(angle) in y, which for angle 0 is exactly speed along +x and
    nothing along y. *)
Theorem spawn_at_centre_then_linear_motion (canvas : Canvas) :
  (forall now d,
      (shootCooldown < now - GamepadState.lastShotTime (gamepadState d))%Z ->
      let g := gamepadState d in
      exists p, projectiles (shootProjectile now d) = projectiles d ++ [p] /\
                Projectile.x p = GamepadState.x g + 25 /\
                Projectile.y p = GamepadState.y g + 25 /\
                Projectile.rotation p = GamepadState.rotation g /\
                Projectile.speed p = 8 /\
                Projectile.active p = true) /\
  (forall p, Projectile.active p = true ->
      Projectile.x (moveProjectile canvas p) =
        Projectile.x p + Projectile.speed p * Math_cos (Projectile.rotation p) /\
      Projectile.y (moveProjectile canvas p) =
        Projectile.y p + Projectile.speed p * Math_sin (Projectile.rotation p)) /\
  (forall p, Projectile.active p = true -> Projectile.rotation p = 0 ->
      Projectile.x (moveProjectile canvas p) = Projectile.x p + Projectile.speed p /\
      Projectile.y (moveProjectile canvas p) = Projectile.y p) /\
  (forall d i p, (List.length (projectiles d) <= 100)%nat ->
      nth_error (projectiles d) i = Some p ->
      nth_error (projectiles (updateProjectiles canvas d)) i =
      Some (moveProjectile canvas p)).
Proof.
  split; [|split; [|split]].
  - intros now d Hcool g. exists (newProjectile (created d) g).
    rewrite (shootProjectile_spawns _ _ Hcool). repeat split; reflexivity.
  - intros p Hp. destruct (moveProjectile_live canvas p Hp) as (Hx & Hy & _).
    split; assumption.
  - intros p Hp Hrot. destruct (moveProjectile_live canvas p Hp) as (Hx & Hy & _).
    rewrite Hx, Hy, Hrot. unfold Math_cos, Math_sin. rewrite cos_0, sin_0. split; lra.
  - intros d i p Hlen Hi. cbn [updateProjectiles projectiles].
    rewrite compact_small by (rewrite length_map; exact Hlen).
    rewrite nth_error_map, Hi. reflexivity.
Qed.

(** The example of the specification: on the 800 x 600 canvas the first shot
    starts at (400, 300) and one step takes it to (408, 300). *)
Lemma spawn_at_centre_then_linear_motion_witness :
  let d := shootProjectile 1000 (centred [] 0 true) in
  exists p, projectiles d = [p] /\
            Projectile.x p = 400 /\ Projectile.y p = 300 /\
            Projectile.x (moveProjectile canvas800 p) = 408 /\
            Projectile.y (moveProjectile canvas800 p) = 300.
Proof.
  intros d.
  destruct (spawn_at_centre_then_linear_motion canvas800) as (Hspawn & _ & Hstep & _).
  destruct (Hspawn 1000%Z (centred [] 0 true)) as (p & Hps & Hx & Hy & Hrot & Hspeed & Hact).
  { unfold shootCooldown. cbn. lia. }
  exists p. split; [exact Hps|].
  cbn in Hx, Hy, Hrot.
  destruct (Hstep p Hact Hrot) as [Hx' Hy'].
  rewrite Hx', Hy', Hx, Hy, Hspeed. repeat split; lra.
Defined.

(** * Compaction (C3) *)

Lemma liveCount_filter (ps : list Projectile.t) :
  List.length (filter Projectile.active ps) = liveCount ps.
Proof.
  induction ps as [|p ps IH]; [reflexivity|].
  cbn [filter liveCount]. destruct (Projectile.active p); cbn [List.length]; lia.
Qed.

Lemma liveCount_le (ps : list Projectile.t) : (liveCount ps <= List.length ps)%nat.
Proof.
  induction ps as [|p ps IH]; [reflexivity|].
  cbn [liveCount List.length]. destruct (Projectile.active p); lia.
Qed.

Lemma liveCount_lt_iff (ps : list Projectile.t) :
  (liveCount ps < List.length ps)%nat <->
  Exists (fun p => Projectile.active p = false) ps.
Proof.
  induction ps as [|p ps IH]; cbn [liveCount List.length].
  - split; [lia | intros H; inversion H].
  - pose proof (liveCount_le ps) as Hle.
    destruct (Projectile.active p) eqn:Hp.
    + split.
      * intros H. apply Exists_cons_tl, IH. lia.
      * intros H. inversion H as [? ? Hd | ? ? Ht]; subst; [congruence|].
        apply IH in Ht. lia.
    + split; [intros _; apply Exists_cons_hd; exact Hp | lia].
Qed.

Lemma moveProjectile_active_le (canvas : Canvas) (p : Projectile.t) :
  Projectile.active (moveProjectile canvas p) = true -> Projectile.active p = true.
Proof.
  unfold moveProjectile. destruct (Projectile.active p) eqn:Hp; [reflexivity|].
  intros H. rewrite Hp in H. exact H.
Qed.

Lemma liveCount_move (canvas : Canvas) (ps : list Projectile.t) :
  (liveCount (map (moveProjectile canvas) ps) <= liveCount ps)%nat.
Proof.
  induction ps as [|p ps IH]; [reflexivity|].
  cbn [map liveCount].
  destruct (Projectile.active (moveProjectile canvas p)) eqn:Hm.
  - rewrite (moveProjectile_active_le _ _ Hm). lia.
  - destruct (Projectile.active p); lia.
Qed.

Lemma moveProjectile_stays_live (canvas : Canvas) (p : Projectile.t) :
  Projectile.active p = true ->
  0 <= Projectile.x p + Math_cos (Projectile.rotation p) * Projectile.speed p
    <= width canvas ->
  0 <= Projectile.y p + Math_sin (Projectile.rotation p) * Projectile.speed p
    <= height canvas ->
  Projectile.active (moveProjectile canvas p) = true.
Proof.
  intros Hp [Hx0 Hx1] [Hy0 Hy1]. unfold moveProjectile. rewrite Hp.
  cbn [Projectile.active].
  rewrite (Rltb_false _ _ Hx0), (Rgtb_false _ _ Hx1),
          (Rltb_false _ _ Hy0), (Rgtb_false _ _ Hy1).
  reflexivity.
Qed.

Lemma filter_all_active (ps : list Projectile.t) :
  Forall (fun p => Projectile.active p = true) ps -> filter Projectile.active ps = ps.
Proof.
  induction 1 as [|p ps Hp _ IH]; [reflexivity|].
  cbn [filter]. rewrite Hp, IH. reflexivity.
Qed.

Lemma volley_moved_live :
  Forall (fun p => Projectile.active p = true) (map (moveProjectile canvas800) volley).
Proof.
  unfold volley. rewrite map_map. apply Forall_map, Forall_forall. intros i _.
  apply moveProjectile_stays_live; [reflexivity | |]; cbn; real_side.
Qed.

(** C3 as stated fails when every stored projectile is still live: a pass over
    101 live projectiles in mid-canvas stores 101 entries afterwards. *)
Lemma compaction_not_strict_counterexample :
  let d := centred volley 101 true in
  (100 < List.length (projectiles d))%nat /\
  List.length (projectiles (updateProjectiles canvas800 d)) = List.length (projectiles d) /\
  ~ (List.length (projectiles (updateProjectiles canvas800 d))
     < List.length (projectiles d))%nat.
Proof.
  intros d.
  assert (Hlen : List.length (projectiles d) = 101%nat).
  { cbn [d centred projectiles]. unfold volley. rewrite length_map, length_seq. reflexivity. }
  assert (Hafter : List.length (projectiles (updateProjectiles canvas800 d)) = 101%nat).
  { cbn [updateProjectiles projectiles d centred].
    rewrite compact_large.
    - rewrite (filter_all_active _ volley_moved_live), length_map.
      unfold volley. rewrite length_map, length_seq. reflexivity.
    - rewrite length_map. unfold volley. rewrite length_map, length_seq. lia. }
  rewrite Hlen, Hafter. repeat split; lia.
Qed.

(** C3, amended: a pass over at most 100 stored projectiles removes no entry;
    a pass over more than 100 keeps exactly the projectiles that are live
    after the pass has moved them, so the stored count becomes their number,
    which is never more than before and is smaller exactly when some stored
    projectile is dead by then. *)
Theorem compaction_policy (canvas : Canvas) (d : GamepadDemo) :
  let ps := projectiles d in
  let moved := map (moveProjectile canvas) ps in
  let ps' := projectiles (updateProjectiles canvas d) in
  ((List.length ps <= 100)%nat ->
   ps' = moved /\ List.length ps' = List.length ps) /\
  ((100 < List.length ps)%nat ->
   ps' = filter Projectile.active moved /\
   List.length ps' = liveCount moved /\
   (liveCount moved <= liveCount ps)%nat /\
   (List.length ps' <= List.length ps)%nat /\
   ((List.length ps' < List.length ps)%nat <->
    Exists (fun p => Projectile.active p = false) moved)).
Proof.
  intros ps moved ps'.
  assert (Hmoved : List.length moved = List.length ps) by apply length_map.
  split; intros Hlen.
  - assert (E : ps' = moved).
    { unfold ps'. cbn [updateProjectiles projectiles]. apply compact_small.
      fold ps moved. lia. }
    rewrite E. split; [reflexivity | exact Hmoved].
  - assert (E : ps' = filter Projectile.active moved).
    { unfold ps'. cbn [updateProjectiles projectiles]. apply compact_large.
      fold ps moved. lia. }
    rewrite E, liveCount_filter.
    pose proof (liveCount_le moved) as Hle.
    repeat split; try lia.
    + apply liveCount_move.
    + intros H. apply liveCount_lt_iff. lia.
    + intros H. apply liveCount_lt_iff in H. lia.
Qed.

Lemma compaction_policy_witness :
  (100 < List.length spent)%nat /\
  (List.length ([] : list Projectile.t) <= 100)%nat /\
  List.length (projectiles (updateProjectiles canvas800 (centred spent 101 true))) = O /\
  projectiles (updateProjectiles canvas800 (centred [] 0 true)) = [].
Proof.
  assert (Hlen : (100 < List.length spent)%nat).
  { unfold spent. rewrite length_map, length_seq. lia. }
  assert (Hnil : (List.length ([] : list Projectile.t) <= 100)%nat) by (cbn; lia).
  split; [exact Hlen|]. split; [exact Hnil|]. split.
  - destruct (compaction_policy canvas800 (centred spent 101 true)) as [_ Hbig].
    destruct (Hbig Hlen) as (_ & Hcount & _). rewrite Hcount.
    cbn [centred projectiles]. unfold spent. rewrite map_map.
    cbn [moveProjectile Projectile.active]. rewrite <- liveCount_filter.
    induction (seq 0 101) as [|i l IH]; [reflexivity | exact IH].
  - destruct (compaction_policy canvas800 (centred [] 0 true)) as [Hsmall _].
    exact (proj1 (Hsmall Hnil)).
Defined.

(** * Frames without a controller (C1) *)

(** With every stick at rest and the entity within the bounds, the sampler
    leaves position and orientation alone. *)
Lemma aimed_at_rest (canvas : Canvas) (gamepad : Gamepad) (d : GamepadDemo) :
  axes gamepad = [0; 0; 0; 0] ->
  inBounds canvas (gamepadState d) ->
  aimed canvas gamepad d = d.
Proof.
  intros Hax [Hx Hy]. unfold aimed. rewrite Hax.
  cbn [nth_error orZero stickMove beyondDeadZone].
  assert (Hrest : Rgtb (Math_abs 0) deadZone = false) by (apply Rgtb_false; real_side).
  rewrite Hrest. cbn [orb]. rewrite (clamp_id _ _ Hx), (clamp_id _ _ Hy).
  destruct d as [[gx gy gr gc gs gl] ps n sch]. reflexivity.
Qed.

Ltac js_fields :=
  unfold construct, fields, initialGamepadState, centred, inFlight, canvas800,
    onGamepadConnected, onGamepadDisconnected, updateProjectiles, newProjectile,
    withGamepadState, withScheduled, withConnected, withShooting, withLastShotTime;
  cbn [fst snd gamepadState projectiles created scheduled width height app map
       GamepadState.x GamepadState.y GamepadState.rotation GamepadState.connected
       GamepadState.shooting GamepadState.lastShotTime
       Projectile.ref Projectile.x Projectile.y Projectile.rotation Projectile.speed
       Projectile.active].

Ltac record_eq := repeat f_equal; try reflexivity; real_side.

(** One step of a live projectile that stays on the 800 x 600 canvas. *)
Lemma moveProjectile_right (r : nat) (x y : R) :
  0 <= x + 8 <= 800 -> 0 <= y <= 600 ->
  moveProjectile canvas800 (Projectile.mk r x y 0 8 true) =
  Projectile.mk r (x + 8) y 0 8 true.
Proof.
  intros Hx Hy. unfold moveProjectile.
  cbn [Projectile.active Projectile.x Projectile.y Projectile.rotation Projectile.speed
       Projectile.ref width height canvas800].
  unfold Math_cos, Math_sin. rewrite cos_0, sin_0.
  rewrite Rltb_false, Rgtb_false, Rltb_false, Rgtb_false by lra.
  cbn [orb]. f_equal; lra.
Qed.

Lemma inFlight_reachable : reachable canvas800 inFlight.
Proof.
  exists [GamepadConnected; AnimationFrame (hostAt [0; 0; 0; 0] true 1000);
          GamepadDisconnected].
  unfold run. cbn [fold_left dispatch].
  set (host := hostAt [0; 0; 0; 0] true 1000).
  assert (Hd0 : onGamepadConnected (construct canvas800) = centred [] 0 true).
  { js_fields. record_eq. }
  rewrite Hd0. cbn [centred scheduled].
  assert (Hs : updateGamepadState canvas800 host (centred [] 0 true) =
               Normal {| gamepadState := GamepadState.mk 375 275 0 true true 1000;
                         projectiles := [Projectile.mk 0 400 300 0 8 true];
                         created := 1; scheduled := true |}).
  { rewrite (sampled_throws canvas800 host _ (pad [0; 0; 0; 0] true) eq_refl).
    cbn [pad axes nth_error]. f_equal.
    rewrite (sampled_fire canvas800 host _ (pad [0; 0; 0; 0] true) eq_refl eq_refl).
    rewrite aimed_at_rest; [|reflexivity|unfold inBounds; cbn; lra].
    cbv zeta. rewrite shootProjectile_spawns by (unfold shootCooldown; cbn; lia).
    js_fields. record_eq. }
  rewrite (gameLoop_completes canvas800 host (centred [] 0 true) _ Hs).
  js_fields. rewrite moveProjectile_right by lra.
  cbn [compact List.length Nat.ltb Nat.leb]. record_eq.
Qed.

(** C1 as stated fails for the projectile list: [gameLoop] runs
    [updateProjectiles] whether or not a controller is connected.  With the
    controller unplugged while a projectile is in flight, the next tick moves
    that projectile from (408, 300) to (416, 300). *)
Lemma disconnected_tick_moves_projectiles_counterexample :
  let host := hostAt [0; 0; 0; 0] true 2000 in
  GamepadState.connected (gamepadState inFlight) = false /\
  projectiles (fst (gameLoop canvas800 host inFlight)) = [Projectile.mk 0 416 300 0 8 true] /\
  projectiles (fst (gameLoop canvas800 host inFlight)) <> projectiles inFlight.
Proof.
  intros host.
  assert (E : projectiles (fst (gameLoop canvas800 host inFlight)) =
              [Projectile.mk 0 416 300 0 8 true]).
  { rewrite gameLoop_disconnected by reflexivity. js_fields.
    rewrite moveProjectile_right by lra.
    cbn [compact List.length Nat.ltb Nat.leb]. record_eq. }
  split; [reflexivity|]. split; [exact E|].
  rewrite E. cbn [inFlight projectiles]. intros H.
  apply (f_equal (map Projectile.x)) in H. cbn in H.
  injection H as H. lra.
Qed.

Lemma moved_all_dead (canvas : Canvas) (ps : list Projectile.t) :
  Forall (fun p => Projectile.active p = false) ps ->
  map (moveProjectile canvas) ps = ps.
Proof.
  induction 1 as [|p ps Hp _ IH]; [reflexivity|].
  cbn [map]. rewrite (moveProjectile_dead _ _ Hp), IH. reflexivity.
Qed.

(** C1, amended: a tick run while the controller is disconnected leaves the
    whole controller state (position, orientation, firing flag, time of the
    last shot) unchanged and creates no projectile; the projectile pass and
    the renderer still run, so the projectile list becomes the compacted list
    of the moved projectiles; it is unchanged when it holds at most 100
    entries and none of them is live. *)
Theorem disconnected_tick (canvas : Canvas) (host : Host) (d : GamepadDemo) :
  GamepadState.connected (gamepadState d) = false ->
  let d' := fst (gameLoop canvas host d) in
  gamepadState d' = gamepadState d /\
  created d' = created d /\
  projectiles d' = compact (map (moveProjectile canvas) (projectiles d)) /\
  snd (gameLoop canvas host d) = Some (render d') /\
  ((List.length (projectiles d) <= 100)%nat ->
   List.length (projectiles d') = List.length (projectiles d)) /\
  ((List.length (projectiles d) <= 100)%nat ->
   Forall (fun p => Projectile.active p = false) (projectiles d) ->
   projectiles d' = projectiles d).
Proof.
  intros Hoff d'. unfold d'. rewrite (gameLoop_disconnected _ _ _ Hoff).
  cbn [fst snd withScheduled updateProjectiles gamepadState created projectiles].
  repeat split.
  - intros Hlen. rewrite compact_small by (rewrite length_map; exact Hlen).
    apply length_map.
  - intros Hlen Hdead. rewrite compact_small by (rewrite length_map; exact Hlen).
    apply moved_all_dead, Hdead.
Qed.

Lemma disconnected_tick_witness :
  let host := hostAt [0; 0; 0; 0] true 2000 in
  GamepadState.connected (gamepadState inFlight) = false /\
  gamepadState (fst (gameLoop canvas800 host inFlight)) = gamepadState inFlight /\
  projectiles (fst (gameLoop canvas800 host (centred [] 0 false))) = [].
Proof.
  intros host. split; [reflexivity|]. split.
  - exact (proj1 (disconnected_tick canvas800 host inFlight eq_refl)).
  - destruct (disconnected_tick canvas800 host (centred [] 0 false) eq_refl)
      as (_ & _ & _ & _ & _ & Hsame).
    apply Hsame; [cbn; lia | constructor].
Defined.

(** * Absent readings (C8) *)

Lemma gameLoop_missing_left_stick
  (canvas : Canvas) (host : Host) (d : GamepadDemo) (gamepad : Gamepad) :
  GamepadState.connected (gamepadState d) = true ->
  firstGamepad (getGamepads host) = Some gamepad ->
  (List.length (axes gamepad) < 2)%nat ->
  gameLoop canvas host d =
  (withScheduled false (completed (updateGamepadState canvas host d)), None).
Proof.
  intros Hconn Hfirst Hlen. apply gameLoop_throws. rewrite Hconn.
  rewrite (sampled_throws canvas host d gamepad Hfirst) at 1.
  destruct (axes gamepad) as [|a0 [|a1 rest]]; cbn [nth_error]; try reflexivity.
  cbn in Hlen. lia.
Qed.

Lemma gameLoop_left_stick_present
  (canvas : Canvas) (host : Host) (d : GamepadDemo) (gamepad : Gamepad) :
  GamepadState.connected (gamepadState d) = true ->
  firstGamepad (getGamepads host) = Some gamepad ->
  (2 <= List.length (axes gamepad))%nat ->
  gameLoop canvas host d =
  (withScheduled true
     (updateProjectiles canvas (completed (updateGamepadState canvas host d))),
   Some (render (updateProjectiles canvas
                   (completed (updateGamepadState canvas host d))))).
Proof.
  intros Hconn Hfirst Hlen. apply gameLoop_completes. rewrite Hconn.
  rewrite (sampled_throws canvas host d gamepad Hfirst) at 1.
  destruct (axes gamepad) as [|a0 [|a1 rest]]; cbn [nth_error]; try reflexivity;
    cbn in Hlen; lia.
Qed.

(** C8: a controller without axes 0 and 1 makes the frame throw.  The
    sampler reads the absent readings as "no movement", then
    [horizontalAxis.toFixed(2)] throws: nothing is drawn, the frame is not
    re-armed and no later frame runs.  Absent axes 2 and 3 and absent buttons
    5, 6 and 7 are tolerated: the frame completes, the orientation is held and
    the fire signal is false. *)
Theorem missing_left_stick_stops_loop :
  let host := {| getGamepads := [Some bareGamepad]; Date_now := 1000%Z |} in
  let d := centred [] 0 true in
  let d' := fst (gameLoop canvas800 host d) in
  (exists d1, updateGamepadState canvas800 host d = TypeError d1) /\
  snd (gameLoop canvas800 host d) = None /\
  scheduled d' = false /\
  (forall later, dispatch canvas800 d' (AnimationFrame later) = d') /\
  (let host2 := {| getGamepads := [Some oneStick]; Date_now := 1000%Z |} in
   snd (gameLoop canvas800 host2 d) <> None /\
   scheduled (fst (gameLoop canvas800 host2 d)) = true /\
   GamepadState.rotation (gamepadState (fst (gameLoop canvas800 host2 d))) = 0 /\
   GamepadState.shooting (gamepadState (fst (gameLoop canvas800 host2 d))) = false).
Proof.
  intros host d d'.
  assert (Hloop : gameLoop canvas800 host d =
                  (withScheduled false (completed (updateGamepadState canvas800 host d)),
                   None)).
  { apply (gameLoop_missing_left_stick canvas800 host d bareGamepad);
      [reflexivity | reflexivity | cbn; lia]. }
  split; [eexists; reflexivity|].
  unfold d'. rewrite Hloop. cbn [fst snd withScheduled scheduled dispatch].
  split; [reflexivity|]. split; [reflexivity|]. split; [reflexivity|].
  set (host2 := {| getGamepads := [Some oneStick]; Date_now := 1000%Z |}).
  assert (Hloop2 := gameLoop_left_stick_present canvas800 host2 d oneStick
                      eq_refl eq_refl (le_n 2)).
  rewrite Hloop2. cbn [fst snd withScheduled scheduled updateProjectiles gamepadState].
  split; [discriminate|]. split; [reflexivity|].
  destruct (sampled_pose canvas800 host2 d oneStick eq_refl) as (_ & _ & Hr & _ & Hs).
  cbv zeta in Hr, Hs. rewrite Hr, Hs. split; [|reflexivity].
  unfold aimed, withGamepadState, oneStick.
  cbn [gamepadState GamepadState.rotation axes nth_error orZero].
  rewrite Rgtb_false by real_side. reflexivity.
Qed.

(** * Liveness never comes back (C6) *)

(** ** References stay distinct *)

Lemma NoDup_map_filter {A B : Type} (f : A -> B) (keep : A -> bool) (l : list A) :
  NoDup (map f l) -> NoDup (map f (filter keep l)).
Proof.
  induction l as [|a l IH]; intros H; [constructor|].
  cbn [map] in H. inversion H as [|? ? Hnotin Hrest]; subst.
  cbn [filter]. destruct (keep a); [|apply IH, Hrest].
  cbn [map]. constructor; [|apply IH, Hrest].
  intros Hin. apply Hnotin. apply in_map_iff in Hin as (b & Hb & Hin).
  apply in_map_iff. exists b. split; [exact Hb|].
  apply filter_In in Hin. apply Hin.
Qed.

Lemma NoDup_map_unique {A B : Type} (f : A -> B) (l : list A) (a b : A) :
  NoDup (map f l) -> In a l -> In b l -> f a = f b -> a = b.
Proof.
  induction l as [|c l IH]; intros H Ha Hb Hf; [destruct Ha|].
  cbn [map] in H. inversion H as [|? ? Hnotin Hrest]; subst.
  destruct Ha as [-> | Ha], Hb as [-> | Hb].
  - reflexivity.
  - exfalso. apply Hnotin. rewrite Hf. apply in_map, Hb.
  - exfalso. apply Hnotin. rewrite <- Hf. apply in_map, Ha.
  - apply IH; assumption.
Qed.

Lemma compact_incl (ps : list Projectile.t) (p : Projectile.t) :
  In p (compact ps) -> In p ps.
Proof.
  unfold compact. destruct (100 <? List.length ps)%nat; [|intros H; exact H].
  intros H. apply filter_In in H. apply H.
Qed.

Lemma moved_refs (canvas : Canvas) (ps : list Projectile.t) :
  map Projectile.ref (map (moveProjectile canvas) ps) = map Projectile.ref ps.
Proof.
  rewrite map_map. apply map_ext. intros p. apply moveProjectile_ref.
Qed.

(** The sampler either leaves the array alone or appends the new object. *)
Lemma sampled_store (canvas : Canvas) (host : Host) (d : GamepadDemo) :
  let d' := completed (updateGamepadState canvas host d) in
  (projectiles d' = projectiles d /\ created d' = created d) \/
  (exists g, projectiles d' = projectiles d ++ [newProjectile (created d) g] /\
             created d' = S (created d)).
Proof.
  cbv zeta.
  destruct (firstGamepad (getGamepads host)) as [gamepad|] eqn:Hfirst.
  - destruct (rightTrigger gamepad) eqn:Hfire.
    + rewrite (sampled_fire canvas host d gamepad Hfirst Hfire). cbv zeta.
      unfold shootProjectile. destruct (Z.ltb _ _).
      * right. eexists. split; reflexivity.
      * left. split; reflexivity.
    + rewrite (sampled_hold canvas host d gamepad Hfirst Hfire).
      left. split; reflexivity.
  - rewrite (sampler_no_gamepad _ _ _ Hfirst). left. split; reflexivity.
Qed.

Lemma wellFormed_sampler (canvas : Canvas) (host : Host) (d : GamepadDemo) :
  wellFormed d -> wellFormed (completed (updateGamepadState canvas host d)).
Proof.
  intros [Hnd Hlt]. unfold wellFormed.
  destruct (sampled_store canvas host d) as [[Hps Hn] | (g & Hps & Hn)];
    rewrite Hps, Hn.
  - split; assumption.
  - split.
    + rewrite map_app. cbn [map newProjectile Projectile.ref].
      apply NoDup_app; [exact Hnd | repeat constructor; intros [] |].
      intros r Hr [<- | []]. apply in_map_iff in Hr as (p & Hp & Hin).
      rewrite Forall_forall in Hlt. specialize (Hlt p Hin). lia.
    + apply Forall_app. split.
      * eapply Forall_impl; [|exact Hlt]. cbn. intros p Hp. lia.
      * repeat constructor.
Qed.

Lemma wellFormed_updateProjectiles (canvas : Canvas) (d : GamepadDemo) :
  wellFormed d -> wellFormed (updateProjectiles canvas d).
Proof.
  intros [Hnd Hlt]. unfold wellFormed. cbn [updateProjectiles projectiles created].
  assert (Hnd' : NoDup (map Projectile.ref (map (moveProjectile canvas) (projectiles d))))
    by (rewrite moved_refs; exact Hnd).
  assert (Hlt' : Forall (fun p => (Projectile.ref p < created d)%nat)
                        (map (moveProjectile canvas) (projectiles d))).
  { apply Forall_map. eapply Forall_impl; [|exact Hlt].
    intros p Hp. cbn. rewrite moveProjectile_ref. exact Hp. }
  unfold compact. destruct (100 <? _)%nat.
  - split; [apply NoDup_map_filter, Hnd'|].
    rewrite Forall_forall in *. intros p Hp. apply Hlt'.
    apply filter_In in Hp. apply Hp.
  - split; assumption.
Qed.

Lemma wellFormed_gameLoop (canvas : Canvas) (host : Host) (d : GamepadDemo) :
  wellFormed d -> wellFormed (fst (gameLoop canvas host d)).
Proof.
  intros Hd.
  assert (Hs : wellFormed (completed (if GamepadState.connected (gamepadState d)
                                      then updateGamepadState canvas host d
                                      else Normal d))).
  { destruct (GamepadState.connected (gamepadState d));
      [apply wellFormed_sampler|]; exact Hd. }
  unfold gameLoop.
  destruct (if GamepadState.connected (gamepadState d) then _ else _) as [d1|d1];
    cbn [completed] in Hs; cbn [fst].
  - apply (wellFormed_updateProjectiles canvas) in Hs. exact Hs.
  - exact Hs.
Qed.

Lemma wellFormed_dispatch (canvas : Canvas) (d : GamepadDemo) (e : Event) :
  wellFormed d -> wellFormed (dispatch canvas d e).
Proof.
  intros Hd. destruct e as [| |host]; cbn [dispatch]; try exact Hd.
  destruct (scheduled d); [apply wellFormed_gameLoop|]; exact Hd.
Qed.

Lemma wellFormed_run (canvas : Canvas) (es : list Event) :
  forall d, wellFormed d -> wellFormed (run canvas d es).
Proof.
  induction es as [|e es IH]; intros d Hd; [exact Hd|].
  apply (IH (dispatch canvas d e)), wellFormed_dispatch, Hd.
Qed.

Lemma reachable_wellFormed (canvas : Canvas) (d : GamepadDemo) :
  reachable canvas d -> wellFormed d.
Proof.
  intros [es ->]. apply wellFormed_run. split; constructor.
Qed.

(** ** A dead projectile stays as it is *)

Lemma wellFormed_frozen (d : GamepadDemo) (p : Projectile.t) :
  wellFormed d -> In p (projectiles d) -> Projectile.active p = false -> frozen p d.
Proof.
  intros [Hnd Hlt] Hin Hdead. split; [exact Hdead|]. split.
  - rewrite Forall_forall in Hlt. apply Hlt, Hin.
  - intros q Hq Href. apply (NoDup_map_unique Projectile.ref (projectiles d)); assumption.
Qed.

Lemma frozen_sampler (canvas : Canvas) (host : Host) (d : GamepadDemo) (p : Projectile.t) :
  frozen p d -> frozen p (completed (updateGamepadState canvas host d)).
Proof.
  intros (Hdead & Hlt & Huniq). unfold frozen.
  destruct (sampled_store canvas host d) as [[Hps Hn] | (g & Hps & Hn)];
    rewrite Hps, Hn.
  - repeat split; assumption.
  - split; [exact Hdead|]. split; [lia|].
    intros q Hq Href. apply in_app_or in Hq as [Hq | [<- | []]].
    + apply Huniq; assumption.
    + cbn [newProjectile Projectile.ref] in Href. lia.
Qed.

Lemma frozen_updateProjectiles (canvas : Canvas) (d : GamepadDemo) (p : Projectile.t) :
  frozen p d -> frozen p (updateProjectiles canvas d).
Proof.
  intros (Hdead & Hlt & Huniq). unfold frozen.
  cbn [updateProjectiles projectiles created].
  split; [exact Hdead|]. split; [exact Hlt|].
  intros q Hq Href. apply compact_incl in Hq.
  apply in_map_iff in Hq as (q0 & <- & Hq0).
  rewrite moveProjectile_ref in Href.
  rewrite (Huniq q0 Hq0 Href). apply moveProjectile_dead, Hdead.
Qed.

Lemma frozen_gameLoop (canvas : Canvas) (host : Host) (d : GamepadDemo) (p : Projectile.t) :
  frozen p d -> frozen p (fst (gameLoop canvas host d)).
Proof.
  intros Hd.
  assert (Hs : frozen p (completed (if GamepadState.connected (gamepadState d)
                                    then updateGamepadState canvas host d
                                    else Normal d))).
  { destruct (GamepadState.connected (gamepadState d));
      [apply frozen_sampler|]; exact Hd. }
  unfold gameLoop.
  destruct (if GamepadState.connected (gamepadState d) then _ else _) as [d1|d1];
    cbn [completed] in Hs; cbn [fst].
  - apply (frozen_updateProjectiles canvas) in Hs. exact Hs.
  - exact Hs.
Qed.

Lemma frozen_dispatch (canvas : Canvas) (d : GamepadDemo) (e : Event) (p : Projectile.t) :
  frozen p d -> frozen p (dispatch canvas d e).
Proof.
  intros Hd. destruct e as [| |host]; cbn [dispatch]; try exact Hd.
  destruct (scheduled d); [apply frozen_gameLoop|]; exact Hd.
Qed.

Lemma frozen_run (canvas : Canvas) (es : list Event) (p : Projectile.t) :
  forall d, frozen p d -> frozen p (run canvas d es).
Proof.
  induction es as [|e es IH]; intros d Hd; [exact Hd|].
  apply (IH (dispatch canvas d e)), frozen_dispatch, Hd.
Qed.

(** C6: liveness only ever goes from true to false.  A step of
    [updateProjectiles] leaves a dead projectile as it is; every reachable
    state holds each projectile object once; and once a projectile of such a
    state is dead, after any sequence of callbacks (frames that sample, spawn,
    move and compact, connections and disconnections) the array entry that is
    this object, if it is still stored, is the same dead projectile. *)
Theorem liveness_monotone (canvas : Canvas) :
  (forall p, Projectile.active (moveProjectile canvas p) = true ->
             Projectile.active p = true) /\
  (forall d, reachable canvas d -> wellFormed d) /\
  (forall d p, wellFormed d -> In p (projectiles d) -> Projectile.active p = false ->
     forall es p', In p' (projectiles (run canvas d es)) ->
                   Projectile.ref p' = Projectile.ref p ->
                   p' = p /\ Projectile.active p' = false).
Proof.
  split; [apply moveProjectile_active_le|]. split; [apply reachable_wellFormed|].
  intros d p Hwf Hin Hdead es p' Hin' Href.
  destruct (frozen_run canvas es p d (wellFormed_frozen d p Hwf Hin Hdead))
    as (_ & _ & Huniq).
  rewrite (Huniq p' Hin' Href). split; [reflexivity | exact Hdead].
Qed.

Lemma liveness_monotone_witness :
  let d := centred [gone] 1 true in
  let es := [GamepadDisconnected;
             AnimationFrame (hostAt [0; 0; 0; 0] true 1000);
             GamepadConnected] in
  wellFormed d /\ In gone (projectiles d) /\ Projectile.active gone = false /\
  In gone (projectiles (run canvas800 d es)) /\
  (forall p', In p' (projectiles (run canvas800 d es)) ->
              Projectile.ref p' = Projectile.ref gone -> Projectile.active p' = false).
Proof.
  intros d es.
  assert (Hwf : wellFormed d).
  { split; cbn; [repeat constructor; intros [] | repeat constructor]. }
  assert (Hin : In gone (projectiles d)) by (left; reflexivity).
  assert (Hrun : In gone (projectiles (run canvas800 d es))) by (left; reflexivity).
  split; [exact Hwf|]. split; [exact Hin|]. split; [reflexivity|].
  split; [exact Hrun|].
  intros p' Hp' Href.
  exact (proj2 (proj2 (proj2 (liveness_monotone canvas800)) d gone Hwf Hin eq_refl
                      es p' Hp' Href)).
Defined.

(** * A projectile is first drawn one step away from where it spawned *)

Lemma filter_compact (ps : list Projectile.t) :
  filter Projectile.active (compact ps) = filter Projectile.active ps.
Proof.
  unfold compact. destruct (100 <? List.length ps)%nat; [|reflexivity].
  induction ps as [|p ps IH]; [reflexivity|].
  cbn [filter]. destruct (Projectile.active p) eqn:Hp; [|exact IH].
  cbn [filter]. rewrite Hp, IH. reflexivity.
Qed.

Lemma renderProjectiles_compact (ps : list Projectile.t) :
  renderProjectiles (compact ps) = renderProjectiles ps.
Proof. unfold renderProjectiles. rewrite filter_compact. reflexivity. Qed.

Lemma renderProjectiles_app (ps qs : list Projectile.t) :
  renderProjectiles (ps ++ qs) = renderProjectiles ps ++ renderProjectiles qs.
Proof. unfold renderProjectiles. rewrite filter_app, map_app. reflexivity. Qed.

Lemma moveProjectile_moves (canvas : Canvas) (p : Projectile.t) :
  Projectile.active p = true -> Projectile.speed p <> 0 ->
  (Projectile.x (moveProjectile canvas p), Projectile.y (moveProjectile canvas p))
  <> (Projectile.x p, Projectile.y p).
Proof.
  intros Hp Hspeed Heq.
  destruct (moveProjectile_live canvas p Hp) as (Hx & Hy & _).
  injection Heq as Hx' Hy'. rewrite Hx in Hx'. rewrite Hy in Hy'.
  assert (Hc : Math_cos (Projectile.rotation p) = 0).
  { apply (Rmult_eq_reg_l (Projectile.speed p)); [lra | exact Hspeed]. }
  assert (Hs : Math_sin (Projectile.rotation p) = 0).
  { apply (Rmult_eq_reg_l (Projectile.speed p)); [lra | exact Hspeed]. }
  pose proof (sin2_cos2 (Projectile.rotation p)) as H1.
  unfold Math_cos in Hc. unfold Math_sin in Hs. rewrite Hc, Hs in H1.
  unfold Rsqr in H1. lra.
Qed.

(** X15: in a frame whose fire signal spawns a projectile, the sampler appends
    it before the projectile pass; if the frame draws, the pass has moved the
    new projectile in that frame (and may have deactivated it), and the scene
    shows it, if at all, one step away from its spawn position, never at the
    spawn position; if the frame draws nothing, it threw and the loop is not
    re-armed. *)
Theorem spawned_projectile_moves_before_render
  (canvas : Canvas) (host : Host) (d : GamepadDemo) (gamepad : Gamepad) :
  GamepadState.connected (gamepadState d) = true ->
  firstGamepad (getGamepads host) = Some gamepad ->
  rightTrigger gamepad = true ->
  (shootCooldown < Date_now host - GamepadState.lastShotTime (gamepadState d))%Z ->
  let new := newProjectile (created d) (gamepadState (aimed canvas gamepad d)) in
  let moved := moveProjectile canvas new in
  let d' := fst (gameLoop canvas host d) in
  projectiles (completed (updateGamepadState canvas host d)) = projectiles d ++ [new] /\
  Projectile.x moved = Projectile.x new + 8 * Math_cos (Projectile.rotation new) /\
  Projectile.y moved = Projectile.y new + 8 * Math_sin (Projectile.rotation new) /\
  (Projectile.x moved, Projectile.y moved) <> (Projectile.x new, Projectile.y new) /\
  match snd (gameLoop canvas host d) with
  | Some scene =>
    projectiles d' = compact (map (moveProjectile canvas) (projectiles d) ++ [moved]) /\
    arcs scene =
      renderProjectiles (map (moveProjectile canvas) (projectiles d)) ++
      (if Projectile.active moved then [(Projectile.x moved, Projectile.y moved)] else [])
  | None => scheduled d' = false
  end.
Proof.
  intros Hconn Hfirst Hfire Hcool new moved d'.
  assert (Hps : projectiles (completed (updateGamepadState canvas host d)) =
                projectiles d ++ [new]).
  { rewrite (sampled_fire canvas host d gamepad Hfirst Hfire). cbv zeta.
    rewrite shootProjectile_spawns by exact Hcool. reflexivity. }
  destruct (moveProjectile_live canvas new eq_refl) as (Hx & Hy & _).
  split; [exact Hps|]. split; [exact Hx|]. split; [exact Hy|]. split.
  - apply moveProjectile_moves; [reflexivity | cbn; lra].
  - pose proof (sampled_throws canvas host d gamepad Hfirst) as Hthrows.
    set (d1 := completed (updateGamepadState canvas host d)) in *.
    unfold d', gameLoop. rewrite Hconn, Hthrows.
    destruct (nth_error (axes gamepad) 0), (nth_error (axes gamepad) 1);
      cbn [snd fst withScheduled scheduled]; try reflexivity.
    cbn [withScheduled updateProjectiles projectiles render arcs].
    rewrite Hps, map_app.
    cbn [map]. fold moved. split; [reflexivity|].
    rewrite renderProjectiles_compact, renderProjectiles_app. f_equal.
    unfold renderProjectiles. cbn [filter]. destruct (Projectile.active moved); reflexivity.
Qed.

Lemma spawned_projectile_moves_before_render_witness :
  let host := hostAt [0; 0; 0; 0] true 1000 in
  let d := centred [] 0 true in
  projectiles (completed (updateGamepadState canvas800 host d)) =
    [Projectile.mk 0 400 300 0 8 true] /\
  exists scene, snd (gameLoop canvas800 host d) = Some scene /\
                arcs scene = [(408, 300)].
Proof.
  intros host d.
  assert (Hcool : (shootCooldown
                   < Date_now host - GamepadState.lastShotTime (gamepadState d))%Z)
    by (unfold shootCooldown; cbn; lia).
  destruct (spawned_projectile_moves_before_render canvas800 host d
              (pad [0; 0; 0; 0] true) eq_refl eq_refl eq_refl Hcool)
    as (Hps & _ & _ & _ & Hscene).
  rewrite aimed_at_rest in Hps, Hscene by (try reflexivity; unfold inBounds; cbn; lra).
  assert (Hnew : newProjectile (created d) (gamepadState d) =
                 Projectile.mk 0 400 300 0 8 true).
  { unfold d. js_fields. record_eq. }
  rewrite Hnew in Hps, Hscene.
  rewrite (moveProjectile_right 0 400 300) in Hscene by lra.
  split; [exact Hps|].
  destruct (snd (gameLoop canvas800 host d)) as [scene|] eqn:Hdrawn.
  - exists scene. split; [reflexivity|]. destruct Hscene as [_ Harcs].
    rewrite Harcs. cbn. f_equal. f_equal. lra.
  - exfalso.
    rewrite (gameLoop_left_stick_present canvas800 host d (pad [0; 0; 0; 0] true)
               eq_refl eq_refl) in Hdrawn by (cbn; lia).
    discriminate Hdrawn.
Defined.

(** * Further properties of the frame loop *)

(** ** The fire signal and the choice of controller *)

(** X1: the fire signal is true exactly when one of the buttons 7, 5 and 6
    exists and is pressed; no other button and no absent button raises it. *)
Theorem rightTrigger_iff (g : Gamepad) :
  rightTrigger g = true <->
  exists i b, (i = 5 \/ i = 6 \/ i = 7)%nat /\
              nth_error (buttons g) i = Some b /\ pressed b = true.
Proof.
  unfold rightTrigger, pressedAt. rewrite orb_false_r. split.
  - intros H. apply orb_true_iff in H as [H | H]; [apply orb_true_iff in H as [H | H]|].
    + destruct (nth_error (buttons g) 7) as [b|] eqn:E; [|discriminate].
      exists 7%nat, b. auto.
    + destruct (nth_error (buttons g) 5) as [b|] eqn:E; [|discriminate].
      exists 5%nat, b. auto.
    + destruct (nth_error (buttons g) 6) as [b|] eqn:E; [|discriminate].
      exists 6%nat, b. auto.
  - intros (i & b & [-> | [-> | ->]] & Hb & Hp); rewrite Hb, Hp;
      rewrite ?orb_true_r; reflexivity.
Qed.

Lemma firstGamepad_split (gs : list (option Gamepad)) (g : Gamepad) :
  firstGamepad gs = Some g <->
  exists n rest, gs = repeat None n ++ Some g :: rest.
Proof.
  split.
  - induction gs as [|[g'|] gs IH]; cbn [firstGamepad]; intros H.
    + discriminate.
    + injection H as ->. exists O, gs. reflexivity.
    + destruct (IH H) as (n & rest & ->). exists (S n), rest. reflexivity.
  - intros (n & rest & ->). induction n as [|n IH]; [reflexivity | exact IH].
Qed.

(** X2: the frame reads the first non-null entry of [getGamepads()] and
    nothing else of the list: that entry is found behind any run of nulls, and
    two hosts that agree on it and on the clock give the same frame, whatever
    other controllers follow. *)
Theorem only_first_gamepad_is_read (canvas : Canvas) (d : GamepadDemo) :
  (forall n g rest now other,
      gameLoop canvas {| getGamepads := repeat None n ++ Some g :: rest;
                         Date_now := now |} d =
      gameLoop canvas {| getGamepads := Some g :: other; Date_now := now |} d) /\
  (forall n now,
      fst (gameLoop canvas {| getGamepads := repeat None n; Date_now := now |} d) =
      withScheduled true (updateProjectiles canvas d)).
Proof.
  split.
  - intros n g rest now other.
    assert (H1 : firstGamepad (repeat None n ++ Some g :: rest) = Some g).
    { apply firstGamepad_split. exists n, rest. reflexivity. }
    unfold gameLoop, updateGamepadState. cbn [getGamepads Date_now firstGamepad].
    rewrite H1. reflexivity.
  - intros n now.
    assert (H1 : firstGamepad (repeat None n) = None).
    { induction n as [|n IH]; [reflexivity | exact IH]. }
    unfold gameLoop.
    rewrite sampler_no_gamepad by exact H1.
    destruct (GamepadState.connected (gamepadState d)); reflexivity.
Qed.

(** ** What a frame draws *)

(** X3: the rectangle of a drawn frame is grey when no controller is
    connected; when a controller is sampled it is red exactly when the fire
    signal is true, whether or not the cooldown let a projectile spawn, and
    blue otherwise; a connected frame that finds no controller keeps the
    colour of the last firing flag. *)
Theorem frame_fill_colour
  (canvas : Canvas) (host : Host) (d : GamepadDemo) (scene : Scene) :
  snd (gameLoop canvas host d) = Some scene ->
  fillStyle scene =
  (if GamepadState.connected (gamepadState d) then
     match firstGamepad (getGamepads host) with
     | Some gamepad => if rightTrigger gamepad then "#e74c3c" else "#3498db"
     | None => if GamepadState.shooting (gamepadState d) then "#e74c3c" else "#3498db"
     end
   else "#ccc")%string.
Proof.
  intros Hscene.
  destruct (GamepadState.connected (gamepadState d)) eqn:Hconn.
  - destruct (firstGamepad (getGamepads host)) as [gamepad|] eqn:Hfirst.
    + pose proof (sampled_throws canvas host d gamepad Hfirst) as Hthrows.
      destruct (sampled_pose canvas host d gamepad Hfirst) as (_ & _ & _ & Hc & Hs).
      cbv zeta in Hc, Hs.
      set (d1 := completed (updateGamepadState canvas host d)) in *.
      unfold gameLoop in Hscene. rewrite Hconn, Hthrows in Hscene.
      destruct (nth_error (axes gamepad) 0), (nth_error (axes gamepad) 1);
        cbn [snd] in Hscene; try discriminate.
      injection Hscene as <-.
      cbn [render updateProjectiles gamepadState fillStyle].
      rewrite Hc, Hconn, Hs. reflexivity.
    + unfold gameLoop in Hscene.
      rewrite Hconn, (sampler_no_gamepad _ _ _ Hfirst) in Hscene.
      injection Hscene as <-.
      cbn [render updateProjectiles gamepadState fillStyle]. rewrite Hconn. reflexivity.
  - rewrite (gameLoop_disconnected _ _ _ Hconn) in Hscene. injection Hscene as <-.
    cbn [render updateProjectiles gamepadState fillStyle]. rewrite Hconn. reflexivity.
Qed.

Lemma frame_fill_colour_witness :
  exists scene,
    snd (gameLoop canvas800 (hostAt [0; 0; 0; 0] true 100) (centred [] 0 true))
    = Some scene /\
    fillStyle scene = "#e74c3c"%string.
Proof.
  eexists. split; [reflexivity|].
  apply (frame_fill_colour canvas800 (hostAt [0; 0; 0; 0] true 100) (centred [] 0 true)).
  reflexivity.
Defined.

Lemma moved_live_onCanvas (canvas : Canvas) (p : Projectile.t) :
  Projectile.active p = true ->
  Projectile.active (moveProjectile canvas p) = true ->
  onCanvas canvas (moveProjectile canvas p).
Proof.
  intros Hp. unfold moveProjectile, onCanvas. rewrite Hp.
  cbn [Projectile.active Projectile.x Projectile.y].
  set (x' := Projectile.x p + _). set (y' := Projectile.y p + _).
  unfold Rltb, Rgtb.
  destruct (Rlt_dec x' 0), (Rlt_dec (width canvas) x'), (Rlt_dec y' 0),
    (Rlt_dec (height canvas) y'); cbn [orb]; intros H; try discriminate; lra.
Qed.

Lemma updated_live_onCanvas (canvas : Canvas) (d : GamepadDemo) (p : Projectile.t) :
  In p (projectiles (updateProjectiles canvas d)) ->
  Projectile.active p = true -> onCanvas canvas p.
Proof.
  cbn [updateProjectiles projectiles]. intros Hin Hlive.
  apply compact_incl, in_map_iff in Hin as (q & <- & _).
  apply moved_live_onCanvas; [apply (moveProjectile_active_le canvas)|]; exact Hlive.
Qed.

Lemma renderProjectiles_length (ps : list Projectile.t) :
  List.length (renderProjectiles ps) = liveCount ps.
Proof. unfold renderProjectiles. rewrite length_map. apply liveCount_filter. Qed.

(** X4: whatever the state before, a frame that draws shows one disc per
    live projectile of the state it leaves, and every disc lies on the canvas,
    in [0, width] x [0, height]: a projectile is drawn only after the pass has
    tested its new position. *)
Theorem drawn_discs_on_canvas
  (canvas : Canvas) (host : Host) (d : GamepadDemo) (scene : Scene) :
  snd (gameLoop canvas host d) = Some scene ->
  List.length (arcs scene) = liveCount (projectiles (fst (gameLoop canvas host d))) /\
  forall x y, In (x, y) (arcs scene) -> 0 <= x <= width canvas /\ 0 <= y <= height canvas.
Proof.
  intros Hscene. unfold gameLoop in *.
  destruct (if GamepadState.connected (gamepadState d) then _ else _) as [d1|d1];
    cbn [fst snd] in *; [|discriminate].
  injection Hscene as <-. cbn [render arcs withScheduled projectiles].
  split; [apply renderProjectiles_length|].
  intros x y Hin. unfold renderProjectiles in Hin.
  apply in_map_iff in Hin as (p & Hp & Hin). apply filter_In in Hin as [Hin Hlive].
  injection Hp as <- <-. apply (updated_live_onCanvas canvas d1 p Hin Hlive).
Qed.

Lemma drawn_discs_on_canvas_witness :
  exists scene,
    snd (gameLoop canvas800 (hostAt [0; 0; 0; 0] true 1000) inFlight) = Some scene /\
    List.length (arcs scene) =
    liveCount (projectiles (fst (gameLoop canvas800 (hostAt [0; 0; 0; 0] true 1000)
                                   inFlight))).
Proof.
  eexists. split; [reflexivity|].
  apply (drawn_discs_on_canvas canvas800 (hostAt [0; 0; 0; 0] true 1000) inFlight).
  reflexivity.
Defined.

(** ** Invariants of the projectile array *)

Section Invariant.
Variable canvas : Canvas.
Variable Inv : GamepadDemo -> Prop.
Hypothesis Inv_connected :
  forall d b, Inv d -> Inv (withGamepadState (withConnected b (gamepadState d)) d).
Hypothesis Inv_scheduled : forall d b, Inv d -> Inv (withScheduled b d).
Hypothesis Inv_sampler :
  forall host d, Inv d -> Inv (completed (updateGamepadState canvas host d)).
Hypothesis Inv_update : forall d, Inv d -> Inv (updateProjectiles canvas d).

Lemma invariant_gameLoop (host : Host) (d : GamepadDemo) :
  Inv d -> Inv (fst (gameLoop canvas host d)).
Proof.
  intros Hd.
  assert (Hs : Inv (completed (if GamepadState.connected (gamepadState d)
                               then updateGamepadState canvas host d
                               else Normal d))).
  { destruct (GamepadState.connected (gamepadState d)); [apply Inv_sampler|]; exact Hd. }
  unfold gameLoop.
  destruct (if GamepadState.connected (gamepadState d) then _ else _) as [d1|d1];
    cbn [completed] in Hs; cbn [fst]; apply Inv_scheduled; [apply Inv_update|]; exact Hs.
Qed.

Lemma invariant_run (es : list Event) :
  forall d, Inv d -> Inv (run canvas d es).
Proof.
  induction es as [|e es IH]; intros d Hd; [exact Hd|].
  apply (IH (dispatch canvas d e)).
  destruct e as [| |host]; cbn [dispatch].
  - apply Inv_connected, Hd.
  - apply Inv_connected, Hd.
  - destruct (scheduled d); [apply invariant_gameLoop|]; exact Hd.
Qed.

End Invariant.

(** What the sampler stores: nothing new, or the object created from the
    clamped position and the sampled rotation. *)
Lemma sampled_store_aimed (canvas : Canvas) (host : Host) (d : GamepadDemo) :
  let d' := completed (updateGamepadState canvas host d) in
  projectiles d' = projectiles d \/
  exists gamepad,
    firstGamepad (getGamepads host) = Some gamepad /\
    projectiles d' =
    projectiles d ++ [newProjectile (created d) (gamepadState (aimed canvas gamepad d))].
Proof.
  cbv zeta.
  destruct (firstGamepad (getGamepads host)) as [gamepad|] eqn:Hfirst.
  - destruct (rightTrigger gamepad) eqn:Hfire.
    + rewrite (sampled_fire canvas host d gamepad Hfirst Hfire). cbv zeta.
      unfold shootProjectile. destruct (Z.ltb _ _).
      * right. exists gamepad. split; reflexivity.
      * left. reflexivity.
    + rewrite (sampled_hold canvas host d gamepad Hfirst Hfire). left. reflexivity.
  - rewrite (sampler_no_gamepad _ _ _ Hfirst). left. reflexivity.
Qed.

Lemma moveProjectile_speed (canvas : Canvas) (p : Projectile.t) :
  Projectile.speed (moveProjectile canvas p) = Projectile.speed p.
Proof. unfold moveProjectile. destruct (Projectile.active p); reflexivity. Qed.

Lemma moveProjectile_rotation (canvas : Canvas) (p : Projectile.t) :
  Projectile.rotation (moveProjectile canvas p) = Projectile.rotation p.
Proof. unfold moveProjectile. destruct (Projectile.active p); reflexivity. Qed.

Lemma Forall_compact (P : Projectile.t -> Prop) (ps : list Projectile.t) :
  Forall P ps -> Forall P (compact ps).
Proof.
  intros H. rewrite Forall_forall in *. intros p Hp. apply H, compact_incl, Hp.
Qed.

(** X5: when the initial position is within the bounds, every live
    projectile of every reachable state lies on the canvas, in
    [0, width] x [0, height]: it spawns inside, at least 25 away from each
    edge, and is retired by the pass that takes it outside. *)
Theorem live_projectiles_on_canvas (canvas : Canvas) (d : GamepadDemo) :
  inBounds canvas (initialGamepadState canvas) ->
  reachable canvas d ->
  forall p, In p (projectiles d) -> Projectile.active p = true ->
            0 <= Projectile.x p <= width canvas /\ 0 <= Projectile.y p <= height canvas.
Proof.
  intros Hinit [es ->].
  set (Inv := fun d => inBounds canvas (gamepadState d) /\
                       Forall (fun p => Projectile.active p = true -> onCanvas canvas p)
                              (projectiles d)).
  assert (H : Inv (run canvas (construct canvas) es)).
  { apply invariant_run; unfold Inv.
    - intros d b Hd. exact Hd.
    - intros d b Hd. exact Hd.
    - intros host d [Hb Hps]. split.
      + apply sampler_inBounds; [| |exact Hb]; destruct Hb as [[? ?] [? ?]]; lra.
      + destruct (sampled_store_aimed canvas host d) as [-> | (gamepad & _ & ->)];
          [exact Hps|].
        apply Forall_app. split; [exact Hps|]. constructor; [|constructor].
        intros _. unfold onCanvas, newProjectile, aimed, withGamepadState.
        cbn [Projectile.x Projectile.y gamepadState GamepadState.x GamepadState.y].
        destruct Hb as [[? ?] [? ?]].
        pose proof (clamp_range (width canvas - 50)
                      (stickMove (nth_error (axes gamepad) 0)
                                 (GamepadState.x (gamepadState d)))).
        pose proof (clamp_range (height canvas - 50)
                      (stickMove (nth_error (axes gamepad) 1)
                                 (GamepadState.y (gamepadState d)))).
        lra.
    - intros d [Hb _]. split; [exact Hb|].
      apply Forall_forall. intros p Hp Hlive.
      apply (updated_live_onCanvas canvas d p Hp Hlive).
    - split; [exact Hinit | constructor]. }
  destruct H as [_ H]. rewrite Forall_forall in H. exact H.
Qed.

Lemma live_projectiles_on_canvas_witness :
  inBounds canvas800 (initialGamepadState canvas800) /\
  reachable canvas800 inFlight /\
  0 <= 408 <= width canvas800 /\ 0 <= 300 <= height canvas800.
Proof.
  assert (Hinit : inBounds canvas800 (initialGamepadState canvas800)).
  { unfold inBounds. cbn. lra. }
  split; [exact Hinit|]. split; [exact inFlight_reachable|].
  exact (live_projectiles_on_canvas canvas800 inFlight Hinit inFlight_reachable
           (Projectile.mk 0 408 300 0 8 true) (or_introl eq_refl) eq_refl).
Defined.

(** X6: every projectile of every reachable state has speed 8, and a pass
    over it, live or dead, keeps its angle and its speed. *)
Theorem projectiles_fly_at_speed_8 (canvas : Canvas) (d : GamepadDemo) :
  reachable canvas d ->
  forall p, In p (projectiles d) ->
    Projectile.speed p = 8 /\
    Projectile.rotation (moveProjectile canvas p) = Projectile.rotation p /\
    Projectile.speed (moveProjectile canvas p) = 8.
Proof.
  intros [es ->].
  set (Inv := fun d => Forall (fun p => Projectile.speed p = 8) (projectiles d)).
  assert (H : Inv (run canvas (construct canvas) es)).
  { apply invariant_run; unfold Inv.
    - intros d b Hd. exact Hd.
    - intros d b Hd. exact Hd.
    - intros host d Hps.
      destruct (sampled_store_aimed canvas host d) as [-> | (gamepad & _ & ->)];
        [exact Hps|].
      apply Forall_app. split; [exact Hps|]. repeat constructor.
    - intros d Hps. cbn [updateProjectiles projectiles].
      apply Forall_compact, Forall_map. eapply Forall_impl; [|exact Hps].
      intros p Hp. cbn. rewrite moveProjectile_speed. exact Hp.
    - constructor. }
  unfold Inv in H. rewrite Forall_forall in H. intros p Hp. specialize (H p Hp).
  split; [exact H|]. split; [apply moveProjectile_rotation|].
  rewrite moveProjectile_speed. exact H.
Qed.

Lemma projectiles_fly_at_speed_8_witness :
  reachable canvas800 inFlight /\
  Projectile.speed (Projectile.mk 0 408 300 0 8 true) = 8.
Proof.
  split; [exact inFlight_reachable|].
  exact (proj1 (projectiles_fly_at_speed_8 canvas800 inFlight inFlight_reachable
                  (Projectile.mk 0 408 300 0 8 true) (or_introl eq_refl))).
Defined.

Lemma liveCount_app (ps qs : list Projectile.t) :
  liveCount (ps ++ qs) = (liveCount ps + liveCount qs)%nat.
Proof.
  induction ps as [|p ps IH]; [reflexivity|].
  cbn [app liveCount]. rewrite IH. lia.
Qed.

Lemma liveCount_all_live (ps : list Projectile.t) :
  Forall (fun p => Projectile.active p = true) ps -> liveCount ps = List.length ps.
Proof.
  induction 1 as [|p ps Hp _ IH]; [reflexivity|].
  cbn [liveCount List.length]. rewrite Hp, IH. reflexivity.
Qed.

Lemma compact_dead_bound (ps : list Projectile.t) :
  (List.length (compact ps) - liveCount (compact ps) <= 100)%nat.
Proof.
  unfold compact. destruct (Nat.ltb_spec 100 (List.length ps)) as [Hbig | Hsmall].
  - rewrite (liveCount_all_live (filter Projectile.active ps)); [lia|].
    apply Forall_forall. intros p Hp. apply filter_In in Hp. apply Hp.
  - lia.
Qed.

(** X7: dead projectiles never pile up: after every pass of
    [updateProjectiles], and in every reachable state, the array holds at most
    100 entries that are not live. *)
Theorem at_most_100_dead_entries (canvas : Canvas) :
  (forall d, let ps := projectiles (updateProjectiles canvas d) in
             (List.length ps - liveCount ps <= 100)%nat) /\
  (forall d, reachable canvas d ->
             (List.length (projectiles d) - liveCount (projectiles d) <= 100)%nat).
Proof.
  split.
  - intros d. apply compact_dead_bound.
  - intros d [es ->].
    apply (invariant_run canvas
             (fun d => (List.length (projectiles d) - liveCount (projectiles d) <= 100)%nat)).
    + intros d0 b Hd. exact Hd.
    + intros d0 b Hd. exact Hd.
    + intros host d0 Hd.
      destruct (sampled_store_aimed canvas host d0) as [-> | (gamepad & _ & ->)];
        [exact Hd|].
      rewrite length_app, liveCount_app. cbn [List.length liveCount newProjectile
                                               Projectile.active]. lia.
    + intros d0 _. apply compact_dead_bound.
    + cbn. lia.
Qed.

Lemma at_most_100_dead_entries_witness :
  reachable canvas800 inFlight /\
  (List.length (projectiles inFlight) - liveCount (projectiles inFlight) <= 100)%nat.
Proof.
  split; [exact inFlight_reachable|].
  exact (proj2 (at_most_100_dead_entries canvas800) inFlight inFlight_reachable).
Defined.

(** ** Connection callbacks and the stopped loop *)

Lemma gameLoop_connected_flag (canvas : Canvas) (host : Host) (d : GamepadDemo) :
  GamepadState.connected (gamepadState (fst (gameLoop canvas host d))) =
  GamepadState.connected (gamepadState d).
Proof.
  rewrite gameLoop_gamepadState.
  destruct (GamepadState.connected (gamepadState d)) eqn:Hconn; [|exact Hconn].
  destruct (firstGamepad (getGamepads host)) as [gamepad|] eqn:Hfirst.
  - destruct (sampled_pose canvas host d gamepad Hfirst) as (_ & _ & _ & Hc & _).
    cbv zeta in Hc. rewrite Hc. exact Hconn.
  - rewrite (sampler_no_gamepad _ _ _ Hfirst). exact Hconn.
Qed.

(** X8: no frame ever changes the connectivity flag: after any sequence of
    callbacks it is what the last connection or disconnection callback set,
    and the initial value when there was none. *)
Theorem connectivity_follows_last_plug_event
  (canvas : Canvas) (es : list Event) (d : GamepadDemo) :
  GamepadState.connected (gamepadState (run canvas d es)) =
  lastPlug (GamepadState.connected (gamepadState d)) es.
Proof.
  revert d. induction es as [|e es IH]; intros d; [reflexivity|].
  unfold run in *. cbn [fold_left]. rewrite IH.
  destruct e as [| |host]; cbn [dispatch lastPlug]; try reflexivity.
  destruct (scheduled d); [|reflexivity].
  rewrite gameLoop_connected_flag. reflexivity.
Qed.

Lemma stopped_run (canvas : Canvas) (es : list Event) :
  forall d, scheduled d = false ->
            run canvas d es =
            withGamepadState
              (withConnected (lastPlug (GamepadState.connected (gamepadState d)) es)
                             (gamepadState d)) d.
Proof.
  induction es as [|e es IH]; intros d Hd.
  - destruct d as [[gx gy gr gc gs gl] ps n sch]. reflexivity.
  - unfold run in *. cbn [fold_left].
    destruct e as [| |host]; cbn [dispatch lastPlug].
    + rewrite IH by exact Hd. reflexivity.
    + rewrite IH by exact Hd. reflexivity.
    + rewrite Hd. apply IH, Hd.
Qed.

(** X9: a frame that throws is the last one that does anything.  After a
    frame on a connected controller with fewer than two axes, whatever
    callbacks follow (frames with any controller, connections,
    disconnections), the position, the orientation, the firing flag and every
    stored projectile stay as that frame left them; only the connectivity flag
    still changes. *)
Theorem nothing_moves_after_a_throw
  (canvas : Canvas) (host : Host) (d : GamepadDemo) (gamepad : Gamepad)
  (es : list Event) :
  GamepadState.connected (gamepadState d) = true ->
  firstGamepad (getGamepads host) = Some gamepad ->
  (List.length (axes gamepad) < 2)%nat ->
  let d' := fst (gameLoop canvas host d) in
  let d'' := run canvas d' es in
  snd (gameLoop canvas host d) = None /\
  projectiles d'' = projectiles d' /\
  GamepadState.x (gamepadState d'') = GamepadState.x (gamepadState d') /\
  GamepadState.y (gamepadState d'') = GamepadState.y (gamepadState d') /\
  GamepadState.rotation (gamepadState d'') = GamepadState.rotation (gamepadState d') /\
  GamepadState.shooting (gamepadState d'') = GamepadState.shooting (gamepadState d') /\
  GamepadState.lastShotTime (gamepadState d'') =
    GamepadState.lastShotTime (gamepadState d') /\
  scheduled d'' = false.
Proof.
  intros Hconn Hfirst Hlen d' d''. unfold d'', d'.
  rewrite (gameLoop_missing_left_stick canvas host d gamepad Hconn Hfirst Hlen).
  cbn [fst snd]. rewrite stopped_run by reflexivity.
  repeat split; reflexivity.
Qed.

Lemma nothing_moves_after_a_throw_witness :
  let host := {| getGamepads := [Some bareGamepad]; Date_now := 1000%Z |} in
  let d' := fst (gameLoop canvas800 host (centred [gone] 1 true)) in
  projectiles
    (run canvas800 d' [AnimationFrame (hostAt [1; 1; 0; 0] true 2000); GamepadDisconnected;
                       AnimationFrame (hostAt [1; 1; 0; 0] true 3000)])
  = projectiles d'.
Proof.
  intros host d'.
  exact (proj1 (proj2 (nothing_moves_after_a_throw canvas800 host (centred [gone] 1 true)
                         bareGamepad _ eq_refl eq_refl (le_S 1 1 (le_n 1))))).
Defined.

(** ** Flight of a projectile over several frames *)

Lemma flight_S (canvas : Canvas) (n : nat) (p : Projectile.t) :
  flight canvas (S n) p = moveProjectile canvas (flight canvas n p).
Proof. reflexivity. Qed.

Lemma live_moved_filter (canvas : Canvas) (ps : list Projectile.t) :
  filter Projectile.active (map (moveProjectile canvas) ps) =
  filter Projectile.active (map (moveProjectile canvas) (filter Projectile.active ps)).
Proof.
  induction ps as [|p ps IH]; [reflexivity|].
  cbn [map filter]. destruct (Projectile.active p) eqn:Hp.
  - cbn [map filter]. rewrite IH. reflexivity.
  - rewrite (moveProjectile_dead _ _ Hp), Hp. exact IH.
Qed.

Lemma flight_line (canvas : Canvas) (n : nat) (p : Projectile.t) :
  Projectile.active (flight canvas n p) = true ->
  Projectile.x (flight canvas n p) =
    Projectile.x p + INR n * (Projectile.speed p * Math_cos (Projectile.rotation p)) /\
  Projectile.y (flight canvas n p) =
    Projectile.y p + INR n * (Projectile.speed p * Math_sin (Projectile.rotation p)) /\
  Projectile.rotation (flight canvas n p) = Projectile.rotation p /\
  Projectile.speed (flight canvas n p) = Projectile.speed p.
Proof.
  induction n as [|n IH]; intros Hlive.
  - change (flight canvas 0 p) with p. cbn [INR]. repeat split; lra.
  - rewrite flight_S in *.
    pose proof (moveProjectile_active_le canvas _ Hlive) as Hprev.
    destruct (IH Hprev) as (Hx & Hy & Hr & Hs).
    destruct (moveProjectile_live canvas _ Hprev) as (Hx' & Hy' & Hr' & Hs' & _).
    rewrite Hx', Hy', Hr', Hs', Hx, Hy, Hr, Hs, S_INR. repeat split; lra.
Qed.

Lemma flight_keeps (canvas : Canvas) (n : nat) (p : Projectile.t) :
  Projectile.rotation (flight canvas n p) = Projectile.rotation p /\
  Projectile.speed (flight canvas n p) = Projectile.speed p /\
  Projectile.ref (flight canvas n p) = Projectile.ref p.
Proof.
  induction n as [|n (Hr & Hs & Hi)]; [repeat split|].
  rewrite flight_S, moveProjectile_rotation, moveProjectile_speed, moveProjectile_ref.
  repeat split; assumption.
Qed.

(** X10: the live projectiles after [n] passes of [updateProjectiles] are, in
    order, the live ones among the stored projectiles each moved [n] times by
    the loop body: compaction, whenever it happens, drops only dead entries
    and never disturbs a flight; and [n] moves leave a projectile's angle and
    speed as they were. *)
Theorem live_after_n_passes (canvas : Canvas) (n : nat) (d : GamepadDemo) :
  filter Projectile.active (projectiles (Nat.iter n (updateProjectiles canvas) d)) =
  filter Projectile.active (map (flight canvas n) (projectiles d)) /\
  Forall (fun p => Projectile.rotation (flight canvas n p) = Projectile.rotation p /\
                   Projectile.speed (flight canvas n p) = Projectile.speed p)
         (projectiles d).
Proof.
  split.
  - induction n as [|n IH].
    + change (Nat.iter 0 (updateProjectiles canvas) d) with d.
      change (flight canvas 0) with (fun p : Projectile.t => p).
      rewrite map_id. reflexivity.
    + change (Nat.iter (S n) (updateProjectiles canvas) d)
        with (updateProjectiles canvas (Nat.iter n (updateProjectiles canvas) d)).
      cbn [updateProjectiles projectiles].
      rewrite filter_compact, live_moved_filter, IH, <- live_moved_filter, map_map.
      reflexivity.
  - apply Forall_forall. intros p _.
    destruct (flight_keeps canvas n p) as (Hr & Hs & _). split; assumption.
Qed.

Lemma flight_dead_stays (canvas : Canvas) (p : Projectile.t) (n m : nat) :
  (n <= m)%nat ->
  Projectile.active (flight canvas n p) = false ->
  Projectile.active (flight canvas m p) = false.
Proof.
  induction 1 as [|m _ IH]; intros Hdead; [exact Hdead|].
  rewrite flight_S, (moveProjectile_dead _ _ (IH Hdead)). exact (IH Hdead).
Qed.

Lemma flight_live_onCanvas (canvas : Canvas) (n : nat) (p : Projectile.t) :
  Projectile.active (flight canvas (S n) p) = true ->
  onCanvas canvas (flight canvas (S n) p).
Proof.
  intros Hlive. rewrite flight_S in *.
  apply moved_live_onCanvas; [apply (moveProjectile_active_le canvas)|]; exact Hlive.
Qed.

(** X11: no projectile flies for ever.  On any canvas, a projectile of speed
    8 (every stored projectile has it) is dead after finitely many passes,
    whatever its position and angle, and stays dead from then on. *)
Theorem every_projectile_is_retired (canvas : Canvas) (p : Projectile.t) :
  Projectile.speed p = 8 ->
  exists n, forall m, (n <= m)%nat -> Projectile.active (flight canvas m p) = false.
Proof.
  intros Hspeed.
  set (A := Rabs (Projectile.x p) + Rabs (width canvas)).
  set (B := Rabs (Projectile.y p) + Rabs (height canvas)).
  destruct (INR_unbounded (A + B)) as [n Hn].
  assert (HA : 0 <= A) by (unfold A; pose proof (Rabs_pos (Projectile.x p));
                           pose proof (Rabs_pos (width canvas)); lra).
  assert (HB : 0 <= B) by (unfold B; pose proof (Rabs_pos (Projectile.y p));
                           pose proof (Rabs_pos (height canvas)); lra).
  exists n. intros m Hm. apply (flight_dead_stays canvas p n m Hm).
  destruct (Projectile.active (flight canvas n p)) eqn:Hlive; [exfalso|reflexivity].
  destruct n as [|n]; [cbn [INR] in Hn; lra|].
  destruct (flight_line canvas (S n) p Hlive) as (Hx & Hy & _).
  destruct (flight_live_onCanvas canvas n p Hlive) as [[Hx0 Hx1] [Hy0 Hy1]].
  rewrite Hx in Hx0, Hx1. rewrite Hy in Hy0, Hy1. rewrite Hspeed in *.
  pose proof (sin2_cos2 (Projectile.rotation p)) as Hunit. unfold Rsqr in Hunit.
  unfold Math_cos, Math_sin in *.
  set (c := cos (Projectile.rotation p)) in *.
  set (s := sin (Projectile.rotation p)) in *.
  set (N := INR (S n)) in *.
  pose proof (Rle_abs (Projectile.x p)) as Hax.
  pose proof (Rle_abs (- Projectile.x p)) as Hax'. rewrite Rabs_Ropp in Hax'.
  pose proof (Rle_abs (Projectile.y p)) as Hay.
  pose proof (Rle_abs (- Projectile.y p)) as Hay'. rewrite Rabs_Ropp in Hay'.
  pose proof (Rle_abs (width canvas)) as Haw.
  pose proof (Rle_abs (height canvas)) as Hah.
  fold A in Hn. fold B in Hn.
  assert (Hdx : - A <= N * (8 * c) <= A) by (unfold A; lra).
  assert (Hdy : - B <= N * (8 * s) <= B) by (unfold B; lra).
  assert (Hsq : (N * (8 * c)) * (N * (8 * c)) + (N * (8 * s)) * (N * (8 * s))
                = 64 * (N * N)).
  { replace ((N * (8 * c)) * (N * (8 * c)) + (N * (8 * s)) * (N * (8 * s)))
      with (64 * (N * N) * (s * s + c * c)) by ring.
    rewrite Hunit. ring. }
  assert (Hdx2 : (N * (8 * c)) * (N * (8 * c)) <= A * A) by nra.
  assert (Hdy2 : (N * (8 * s)) * (N * (8 * s)) <= B * B) by nra.
  assert (HN : (A + B) * (A + B) < N * N) by nra.
  nra.
Qed.

Lemma every_projectile_is_retired_witness :
  Projectile.speed (Projectile.mk 0 400 300 0 8 true) = 8 /\
  exists n, forall m, (n <= m)%nat ->
    Projectile.active (flight canvas800 m (Projectile.mk 0 400 300 0 8 true)) = false.
Proof.
  split; [reflexivity|].
  exact (every_projectile_is_retired canvas800 (Projectile.mk 0 400 300 0 8 true) eq_refl).
Defined.

(** ** How far a frame moves the entity, how many projectiles it adds *)

Lemma clamp_between (hi x t : R) :
  0 <= x <= hi ->
  Rmin x t <= Math_max 0 (Math_min hi t) <= Rmax x t.
Proof.
  intros Hx. unfold Math_max, Math_min, Rmax, Rmin.
  destruct (Rle_dec hi t);
    match goal with |- context [Rle_dec 0 ?b] => destruct (Rle_dec 0 b) end;
    destruct (Rle_dec x t); lra.
Qed.

(** X12: from a position within the bounds, the clamp never overshoots and
    never reverses a move: after a sampled frame each coordinate lies between
    the old coordinate and the coordinate the stick asked for (the old one
    plus reading * 5 beyond the dead zone, the old one otherwise), and is the
    old coordinate when the reading is absent. *)
Theorem clamp_stays_between_old_and_target
  (canvas : Canvas) (host : Host) (d : GamepadDemo) (gamepad : Gamepad) :
  inBounds canvas (gamepadState d) ->
  firstGamepad (getGamepads host) = Some gamepad ->
  let g := gamepadState d in
  let g' := gamepadState (completed (updateGamepadState canvas host d)) in
  let tx := stickMove (nth_error (axes gamepad) 0) (GamepadState.x g) in
  let ty := stickMove (nth_error (axes gamepad) 1) (GamepadState.y g) in
  Rmin (GamepadState.x g) tx <= GamepadState.x g' <= Rmax (GamepadState.x g) tx /\
  Rmin (GamepadState.y g) ty <= GamepadState.y g' <= Rmax (GamepadState.y g) ty /\
  (nth_error (axes gamepad) 0 = None -> GamepadState.x g' = GamepadState.x g) /\
  (nth_error (axes gamepad) 1 = None -> GamepadState.y g' = GamepadState.y g).
Proof.
  intros [Hbx Hby] Hfirst g g' tx ty.
  destruct (sampled_pose canvas host d gamepad Hfirst) as (Hx & Hy & _).
  cbv zeta in Hx, Hy. unfold aimed, withGamepadState in Hx, Hy.
  cbn [gamepadState GamepadState.x GamepadState.y] in Hx, Hy.
  fold g g' in Hx, Hy. fold tx in Hx. fold ty in Hy. fold g in Hbx, Hby.
  rewrite Hx, Hy.
  split; [apply clamp_between; exact Hbx|]. split; [apply clamp_between; exact Hby|].
  split; intros Hnone.
  - unfold tx. rewrite Hnone. cbn [stickMove]. apply clamp_id. exact Hbx.
  - unfold ty. rewrite Hnone. cbn [stickMove]. apply clamp_id. exact Hby.
Qed.

Lemma clamp_stays_between_old_and_target_witness :
  let host := hostAt [1; -1; 0; 0] false 1000 in
  let d := centred [] 0 true in
  inBounds canvas800 (gamepadState d) /\
  Rmin 375 (stickMove (Some 1) 375)
  <= GamepadState.x (gamepadState (completed (updateGamepadState canvas800 host d)))
  <= Rmax 375 (stickMove (Some 1) 375).
Proof.
  intros host d.
  assert (Hb : inBounds canvas800 (gamepadState d)) by (unfold inBounds; cbn; lra).
  split; [exact Hb|].
  exact (proj1 (clamp_stays_between_old_and_target canvas800 host d
                  (pad [1; -1; 0; 0] false) Hb eq_refl)).
Defined.

Lemma compact_length_le (ps : list Projectile.t) :
  (List.length (compact ps) <= List.length ps)%nat.
Proof.
  unfold compact. destruct (100 <? List.length ps)%nat; [|lia].
  rewrite liveCount_filter. apply liveCount_le.
Qed.

(** X13: a frame stores at most one projectile more than before, and none
    more unless a controller is connected and sampled and its fire signal is
    true. *)
Theorem frame_adds_at_most_one_projectile
  (canvas : Canvas) (host : Host) (d : GamepadDemo) :
  (List.length (projectiles (fst (gameLoop canvas host d)))
   <= List.length (projectiles d) + (if fires host d then 1 else 0))%nat.
Proof.
  assert (Hs : (List.length
                  (projectiles (completed (if GamepadState.connected (gamepadState d)
                                           then updateGamepadState canvas host d
                                           else Normal d)))
                <= List.length (projectiles d) + (if fires host d then 1 else 0))%nat).
  { unfold fires. destruct (GamepadState.connected (gamepadState d)); cbn [andb completed];
      [|lia].
    destruct (firstGamepad (getGamepads host)) as [gamepad|] eqn:Hfirst.
    - destruct (rightTrigger gamepad) eqn:Hfire.
      + rewrite (sampled_fire canvas host d gamepad Hfirst Hfire). cbv zeta.
        unfold shootProjectile. destruct (Z.ltb _ _); cbn [withGamepadState projectiles].
        * rewrite length_app. cbn [List.length aimed withGamepadState projectiles]. lia.
        * cbn [aimed withGamepadState projectiles]. lia.
      + rewrite (sampled_hold canvas host d gamepad Hfirst Hfire).
        cbn [aimed withGamepadState projectiles]. lia.
    - rewrite (sampler_no_gamepad _ _ _ Hfirst). cbn [completed]. lia. }
  unfold gameLoop.
  destruct (if GamepadState.connected (gamepadState d) then _ else _) as [d1|d1];
    cbn [completed] in Hs; cbn [fst withScheduled updateProjectiles projectiles].
  - pose proof (compact_length_le (map (moveProjectile canvas) (projectiles d1))) as Hc.
    rewrite length_map in Hc. lia.
  - exact Hs.
Qed.

(** X14: in a frame that samples a controller and draws, the rectangle is
    drawn around the clamped position plus 25 on each axis and turned by the
    sampled orientation, and a projectile spawned in that frame starts at that
    very point with that very angle. *)
Theorem projectile_starts_at_drawn_centre
  (canvas : Canvas) (host : Host) (d : GamepadDemo) (gamepad : Gamepad) (scene : Scene) :
  GamepadState.connected (gamepadState d) = true ->
  firstGamepad (getGamepads host) = Some gamepad ->
  snd (gameLoop canvas host d) = Some scene ->
  let new := newProjectile (created d) (gamepadState (aimed canvas gamepad d)) in
  translate scene = (Projectile.x new, Projectile.y new) /\
  rotate scene = Projectile.rotation new /\
  translate scene =
    (Math_max 0 (Math_min (width canvas - 50)
                   (stickMove (nth_error (axes gamepad) 0)
                              (GamepadState.x (gamepadState d)))) + 25,
     Math_max 0 (Math_min (height canvas - 50)
                   (stickMove (nth_error (axes gamepad) 1)
                              (GamepadState.y (gamepadState d)))) + 25).
Proof.
  intros Hconn Hfirst Hscene new.
  pose proof (sampled_throws canvas host d gamepad Hfirst) as Hthrows.
  destruct (sampled_pose canvas host d gamepad Hfirst) as (Hx & Hy & Hr & _).
  cbv zeta in Hx, Hy, Hr.
  set (d1 := completed (updateGamepadState canvas host d)) in *.
  unfold gameLoop in Hscene. rewrite Hconn, Hthrows in Hscene.
  destruct (nth_error (axes gamepad) 0) as [a0|] eqn:E0,
           (nth_error (axes gamepad) 1) as [a1|] eqn:E1;
    cbn [snd] in Hscene; try discriminate.
  injection Hscene as <-.
  cbn [render updateProjectiles gamepadState translate rotate].
  rewrite Hx, Hy, Hr. unfold new, newProjectile, aimed, withGamepadState.
  cbn [gamepadState GamepadState.x GamepadState.y GamepadState.rotation
       Projectile.x Projectile.y Projectile.rotation].
  rewrite E0, E1. repeat split; reflexivity.
Qed.

Lemma projectile_starts_at_drawn_centre_witness :
  exists scene,
    snd (gameLoop canvas800 (hostAt [0; 0; 0; 0] true 1000) (centred [] 0 true))
    = Some scene /\
    rotate scene =
    Projectile.rotation
      (newProjectile 0 (gamepadState (aimed canvas800 (pad [0; 0; 0; 0] true)
                                            (centred [] 0 true)))).
Proof.
  eexists. split; [reflexivity|].
  exact (proj1 (proj2 (projectile_starts_at_drawn_centre canvas800
                         (hostAt [0; 0; 0; 0] true 1000) (centred [] 0 true)
                         (pad [0; 0; 0; 0] true) _ eq_refl eq_refl eq_refl))).
Defined.

(** * A projectile spawned by a frame that throws (C10) *)

(** C10: a frame on a connected controller that exposes one axis, with the
    trigger pressed and the cooldown over, spawns a projectile and then throws
    while formatting the status text, before [updateProjectiles] is reached:
    at the end of that tick the new projectile is stored live at its spawn
    position (405, 300), not advanced to (413, 300) as one step of the pass
    would; nothing is drawn, the loop is not re-armed, and no later callback
    ever moves the projectile. *)
Theorem spawned_in_throwing_frame_is_not_advanced :
  let host := hostAt [1] true 1000 in
  let d := centred [] 0 true in
  let d' := fst (gameLoop canvas800 host d) in
  let spawned := Projectile.mk 0 405 300 0 8 true in
  rightTrigger (pad [1] true) = true /\
  (shootCooldown < Date_now host - GamepadState.lastShotTime (gamepadState d))%Z /\
  projectiles (completed (updateGamepadState canvas800 host d)) = [spawned] /\
  projectiles d' = [spawned] /\
  moveProjectile canvas800 spawned = Projectile.mk 0 413 300 0 8 true /\
  projectiles d' <> [moveProjectile canvas800 spawned] /\
  snd (gameLoop canvas800 host d) = None /\
  scheduled d' = false /\
  (forall es, projectiles (run canvas800 d' es) = [spawned]).
Proof.
  intros host d d' spawned.
  assert (Hcool : (shootCooldown
                   < Date_now host - GamepadState.lastShotTime (gamepadState d))%Z)
    by (unfold shootCooldown; cbn; lia).
  assert (Haim : aimed canvas800 (pad [1] true) d =
                 {| gamepadState := GamepadState.mk 380 275 0 true false 0;
                    projectiles := []; created := 0; scheduled := true |}).
  { unfold aimed, d. js_fields. cbn [pad axes nth_error orZero stickMove beyondDeadZone].
    rewrite (Rgtb_true (Math_abs 1) deadZone) by real_side.
    rewrite (Rgtb_false (Math_abs 0) deadZone) by real_side.
    rewrite !clamp_id by lra. cbn [orb]. record_eq. }
  assert (Hps : projectiles (completed (updateGamepadState canvas800 host d)) = [spawned]).
  { rewrite (sampled_fire canvas800 host d (pad [1] true) eq_refl eq_refl).
    cbv zeta. rewrite Haim.
    rewrite shootProjectile_spawns by (unfold shootCooldown; cbn; lia).
    js_fields. unfold spawned. record_eq. }
  assert (Hloop := gameLoop_missing_left_stick canvas800 host d (pad [1] true)
                     eq_refl eq_refl (le_n 2)).
  assert (Hd' : projectiles d' = [spawned]).
  { unfold d'. rewrite Hloop. cbn [fst withScheduled projectiles]. exact Hps. }
  assert (Hmove : moveProjectile canvas800 spawned = Projectile.mk 0 413 300 0 8 true).
  { unfold spawned. rewrite moveProjectile_right by lra. record_eq. }
  split; [reflexivity|]. split; [exact Hcool|]. split; [exact Hps|].
  split; [exact Hd'|]. split; [exact Hmove|]. split.
  { rewrite Hd', Hmove. unfold spawned. intros H.
    apply (f_equal (map Projectile.x)) in H. cbn [map Projectile.x] in H.
    injection H as H. lra. }
  split; [rewrite Hloop; reflexivity|].
  split; [unfold d'; rewrite Hloop; reflexivity|].
  intros es. rewrite stopped_run by (unfold d'; rewrite Hloop; reflexivity).
  cbn [withGamepadState projectiles]. exact Hd'.
Qed.
